(** * RCM claims tool: the claim update, reconciliation and history flow

    A shallow embedding of the update flow of the billing-claims UI:

    - [JS]: the fragment of JavaScript values and built-ins the flow uses
      (numbers as decimal literals, truthiness, [===], [parseFloat],
      [Date.prototype.toISOString], [JSON.stringify] of a property);
    - [ClaimService]: the API client, services/claimService.ts, which
      follows the router in frontend/src/App.tsx ([formatDateValue], the
      payload normalisation and the retry loop of [updateClaim],
      [fetchClaimById], [fetchClaimHistory]);
    - [ClaimContext]: the state manager, contexts/ClaimContext.tsx, which
      follows the auth context in frontend/src/contexts/AuthContext.tsx
      ([mapApiClaimToVisitClaim], [formatDateFields], [updateClaim]);
    - [HistorySection]: the history view's [loadHistory] and its rendering
      (frontend/src/components/profile/HistorySection.tsx);
    - [Server]: the claim service behind [PUT /api/claims/:id].

    JavaScript objects are finite maps from property names to values; React
    state is a record threaded through the functions; the network is an
    oracle that answers each attempt. *)

From Stdlib Require Import Ascii.
From stdpp Require Import base numbers option list strings pretty gmap fin_maps.

Open Scope string_scope.
Open Scope Z_scope.

(** ** JavaScript values and built-ins *)

Module JS.

(** A Number is the exact value of a decimal literal, [m * 10 ^ e], or one of
    the non-finite values.  Every number of the flow comes from a literal
    (JSON or [parseFloat]) and no arithmetic is done on them; rounding to
    binary64 and the sign of zero are left out. *)
Inductive number :=
  | NaN
  | Infinity (negative : bool)
  | Finite (m e : Z).

(** The values a claim field can hold.  [JStrings] is an array of strings
    (the [notes] of a claim). *)
Inductive jsval :=
  | JUndefined
  | JNull
  | JBool (b : bool)
  | JNum (n : number)
  | JStr (s : string)
  | JStrings (l : list string).

#[global] Instance number_eq_dec : EqDecision number.
Proof. solve_decision. Defined.

#[global] Instance jsval_eq_dec : EqDecision jsval.
Proof. solve_decision. Defined.

(** A JavaScript object with string keys. *)
Abbreviation object := (gmap string jsval).

(** [obj[key]]: a missing property reads as [undefined]. *)
Definition get (o : object) (key : string) : jsval :=
  default JUndefined (o !! key).

Definition isNaN (n : number) : bool :=
  match n with NaN => true | _ => false end.

Definition is_zero (n : number) : bool :=
  match n with Finite m _ => m =? 0 | _ => false end.

(** ToBoolean. *)
Definition truthy (v : jsval) : bool :=
  match v with
  | JUndefined | JNull => false
  | JBool b => b
  | JNum n => negb (isNaN n) && negb (is_zero n)
  | JStr s => negb (String.eqb s "")
  | JStrings _ => true
  end.

(** [a || b]. *)
Definition or_else (a b : jsval) : jsval := if truthy a then a else b.

Definition num_eqb (a b : number) : bool :=
  match a, b with
  | Finite m1 e1, Finite m2 e2 =>
      let e := Z.min e1 e2 in
      m1 * 10 ^ (e1 - e) =? m2 * 10 ^ (e2 - e)
  | Infinity s1, Infinity s2 => Bool.eqb s1 s2
  | _, _ => false
  end.

(** [a === b].  Two arrays are equal only when they are the same object,
    which the value does not tell: they compare unequal here. *)
Definition strict_eq (a b : jsval) : bool :=
  match a, b with
  | JUndefined, JUndefined => true
  | JNull, JNull => true
  | JBool x, JBool y => Bool.eqb x y
  | JNum x, JNum y => num_eqb x y
  | JStr x, JStr y => String.eqb x y
  | _, _ => false
  end.

(** *** Strings *)

Definition is_digit (c : ascii) : bool :=
  let n := N_of_ascii c in ((48 <=? n) && (n <=? 57))%N.

Definition digit_value (c : ascii) : Z := Z.of_N (N_of_ascii c) - 48.

(** The ASCII members of StrWhiteSpaceChar: TAB, LF, VT, FF, CR, SP. *)
Definition is_white_space (c : ascii) : bool :=
  let n := N_of_ascii c in
  (((9 <=? n) && (n <=? 13)) || (n =? 32))%N.

Fixpoint trim_start (s : string) : string :=
  match s with
  | String c r => if is_white_space c then trim_start r else s
  | EmptyString => s
  end.

(** The longest run of decimal digits at the head of [s], and the rest. *)
Fixpoint take_digits (s : string) : list Z * string :=
  match s with
  | String c r =>
      if is_digit c
      then let '(ds, rest) := take_digits r in (digit_value c :: ds, rest)
      else ([], s)
  | EmptyString => ([], s)
  end.

Definition digits_value (ds : list Z) : Z :=
  fold_left (fun acc d => acc * 10 + d) ds 0.

Fixpoint strip_prefix (p s : string) : option string :=
  match p, s with
  | EmptyString, _ => Some s
  | String a p', String b s' =>
      if Ascii.eqb a b then strip_prefix p' s' else None
  | String _ _, EmptyString => None
  end.

(** [s.includes(sub)]. *)
Fixpoint includes (sub s : string) : bool :=
  match strip_prefix sub s with
  | Some _ => true
  | None =>
      match s with
      | String _ r => includes sub r
      | EmptyString => false
      end
  end.

(** [s.split(sep)[0]] for a one-character separator. *)
Fixpoint split_head (sep : ascii) (s : string) : string :=
  match s with
  | String c r => if Ascii.eqb c sep then "" else String c (split_head sep r)
  | EmptyString => ""
  end.

Fixpoint join (sep : string) (l : list string) : string :=
  match l with
  | [] => ""
  | [x] => x
  | x :: r => x +:+ sep +:+ join sep r
  end.

Fixpoint zeros (n : nat) : string :=
  match n with O => "" | S k => String "0" (zeros k) end.

(** [String(n).padStart(width, '0')] for [0 <= n]. *)
Definition pad (width : nat) (n : Z) : string :=
  let s := pretty n in
  zeros (width - String.length s) +:+ s.

(** *** Number to string and back *)

(** Drops the zeros at the end of a digit string and counts them. *)
Fixpoint strip_zeros (rev_digits : list ascii) (dropped : Z) : list ascii * Z :=
  match rev_digits with
  | c :: r =>
      if Ascii.eqb c "0" then strip_zeros r (dropped + 1)
      else (rev_digits, dropped)
  | [] => ([], dropped)
  end.

Definition string_of_chars (l : list ascii) : string :=
  fold_right String "" l.

Fixpoint chars_of_string (s : string) : list ascii :=
  match s with
  | String c r => c :: chars_of_string r
  | EmptyString => []
  end.

(** Number::toString for a positive [m * 10 ^ e]: with [k] significant
    digits and [n] the position of the decimal point. *)
Definition positive_to_string (m e : Z) : string :=
  let '(rev_sig, dropped) := strip_zeros (rev (chars_of_string (pretty m))) 0 in
  let digits := rev rev_sig in
  let k := Z.of_nat (length digits) in
  let n := k + e + dropped in
  if (k <=? n) && (n <=? 21) then
    string_of_chars digits +:+ zeros (Z.to_nat (n - k))
  else if (0 <? n) && (n <=? 21) then
    string_of_chars (take (Z.to_nat n) digits) +:+ "." +:+
    string_of_chars (drop (Z.to_nat n) digits)
  else if (-6 <? n) && (n <=? 0) then
    "0." +:+ zeros (Z.to_nat (- n)) +:+ string_of_chars digits
  else
    let exponent :=
      (if 0 <=? n - 1 then "e+" else "e-") +:+ pretty (Z.abs (n - 1)) in
    match digits with
    | [d] => String d exponent
    | d :: more => String d ("." +:+ string_of_chars more) +:+ exponent
    | [] => exponent
    end.

Definition number_to_string (x : number) : string :=
  match x with
  | NaN => "NaN"
  | Infinity false => "Infinity"
  | Infinity true => "-Infinity"
  | Finite m e =>
      if m =? 0 then "0"
      else if m <? 0 then "-" +:+ positive_to_string (- m) e
      else positive_to_string m e
  end.

(** ToString. *)
Definition to_string (v : jsval) : string :=
  match v with
  | JUndefined => "undefined"
  | JNull => "null"
  | JBool true => "true"
  | JBool false => "false"
  | JNum n => number_to_string n
  | JStr s => s
  | JStrings l => join "," l
  end.

(** ExponentPart, when one follows the mantissa; no exponent otherwise. *)
Definition parse_exponent (s : string) : Z :=
  match s with
  | String c r =>
      if Ascii.eqb c "e" || Ascii.eqb c "E" then
        let '(sign, r') :=
          match r with
          | String "+" r' => (1, r')
          | String "-" r' => (-1, r')
          | _ => (1, r)
          end in
        match take_digits r' with
        | ([], _) => 0
        | (ds, _) => sign * digits_value ds
        end
      else 0
  | EmptyString => 0
  end.

(** The longest prefix that is a StrUnsignedDecimalLiteral. *)
Definition parse_unsigned (s : string) : option number :=
  match strip_prefix "Infinity" s with
  | Some _ => Some (Infinity false)
  | None =>
      let '(ds1, r1) := take_digits s in
      match r1 with
      | String "." r2 =>
          let '(ds2, r3) := take_digits r2 in
          match ds1, ds2 with
          | [], [] => None
          | _, _ =>
              Some (Finite (digits_value (ds1 ++ ds2))
                           (parse_exponent r3 - Z.of_nat (length ds2)))
          end
      | _ =>
          match ds1 with
          | [] => None
          | _ => Some (Finite (digits_value ds1) (parse_exponent r1))
          end
      end
  end.

Definition negate (x : number) : number :=
  match x with
  | NaN => NaN
  | Infinity s => Infinity (negb s)
  | Finite m e => Finite (- m) e
  end.

Definition parse_decimal (s : string) : option number :=
  match s with
  | String "+" r => parse_unsigned r
  | String "-" r => negate <$> parse_unsigned r
  | _ => parse_unsigned s
  end.

(** [parseFloat(v)]: ToString, trim the start, longest literal prefix.
    The white space trimmed is the ASCII one and the number is the exact
    value of the literal, so this is the built-in on ASCII text whose
    literal the built-in reads without rounding. *)
Definition parseFloat (v : jsval) : number :=
  default NaN (parse_decimal (trim_start (to_string v))).

(** What [JSON.stringify] writes for a property holding [v]: nothing for
    [undefined], [null] for a number that is not finite. *)
Definition json_property (v : jsval) : option jsval :=
  match v with
  | JUndefined => None
  | JNum NaN | JNum (Infinity _) => Some JNull
  | _ => Some v
  end.

(** *** Dates *)

Definition msPerDay : Z := 86400000.

(** The largest time value, 8.64e15 ms. *)
Definition maxTime : Z := 8640000000000000.

(** Year, month (1 to 12) and day of a day number counted from 1970-01-01,
    in the proleptic Gregorian calendar (YearFromTime, MonthFromTime and
    DateFromTime of a time value). *)
Definition civil_from_days (day : Z) : Z * Z * Z :=
  let z := day + 719468 in
  let era := z / 146097 in
  let doe := z - era * 146097 in
  let yoe := (doe - doe / 1460 + doe / 36524 - doe / 146096) / 365 in
  let doy := doe - (365 * yoe + yoe / 4 - yoe / 100) in
  let mp := (5 * doy + 2) / 153 in
  let d := doy - (153 * mp + 2) / 5 + 1 in
  let m := if mp <? 10 then mp + 3 else mp - 9 in
  let y := yoe + era * 400 in
  (if m <=? 2 then y + 1 else y, m, d).

(** MakeDay: the day number of a civil date. *)
Definition days_from_civil (y m d : Z) : Z :=
  let y' := if m <=? 2 then y - 1 else y in
  let era := y' / 400 in
  let yoe := y' - era * 400 in
  let doy := (153 * (if 2 <? m then m - 3 else m + 9) + 2) / 5 + d - 1 in
  let doe := yoe * 365 + yoe / 4 - yoe / 100 + doy in
  era * 146097 + doe - 719468.

Definition is_leap_year (y : Z) : bool :=
  (y mod 4 =? 0) && (negb (y mod 100 =? 0) || (y mod 400 =? 0)).

Definition days_in_month (y m : Z) : Z :=
  if m =? 2 then (if is_leap_year y then 29 else 28)
  else if (m =? 4) || (m =? 6) || (m =? 9) || (m =? 11) then 30
  else 31.

Definition valid_date (y m d : Z) : bool :=
  (1 <=? m) && (m <=? 12) && (1 <=? d) && (d <=? days_in_month y m).

(** The year of the ISO format: four digits, or a sign and six digits
    outside 0 to 9999. *)
Definition year_string (y : Z) : string :=
  if (0 <=? y) && (y <=? 9999) then pad 4 y
  else (if y <? 0 then "-" else "+") +:+ pad 6 (Z.abs y).

(** The date part of the ISO format, in UTC. *)
Definition iso_date (t : Z) : string :=
  let '(y, m, d) := civil_from_days (t / msPerDay) in
  year_string y +:+ "-" +:+ pad 2 m +:+ "-" +:+ pad 2 d.

(** [date.toISOString()] of a valid date with time value [t]: always UTC. *)
Definition toISOString (t : Z) : string :=
  let ms := t mod msPerDay in
  iso_date t +:+ "T" +:+
  pad 2 (ms / 3600000) +:+ ":" +:+ pad 2 (ms / 60000 mod 60) +:+ ":" +:+
  pad 2 (ms / 1000 mod 60) +:+ "." +:+ pad 3 (ms mod 1000) +:+ "Z".

(** TimeClip of a number: NaN ([None]) beyond [maxTime], truncated to an
    integer otherwise. *)
Definition time_clip (n : number) : option Z :=
  match n with
  | Finite m e =>
      if 0 <=? e then
        (if Z.abs (m * 10 ^ e) <=? maxTime then Some (m * 10 ^ e) else None)
      else
        (if Z.abs m <=? maxTime * 10 ^ (- e)
         then Some (Z.quot m (10 ^ (- e))) else None)
  | _ => None
  end.

(** What the language leaves to the host: [Date.parse] of a string, [None]
    for NaN.  It reads the date-time formats of the host and depends on the
    host's time zone. *)
Class Engine := { Date_parse : string -> option Z }.

(** The time value of [new Date(v)], [None] for an invalid date: a string is
    parsed, any other value is converted to a number and clipped. *)
Definition new_Date `{Engine} (v : jsval) : option Z :=
  match v with
  | JStr s => Date_parse s
  | JStrings l => Date_parse (join "," l)
  | JNum n => time_clip n
  | JBool b => Some (if b then 1 else 0)
  | JNull => Some 0
  | JUndefined => None
  end.

(** [/^\d{4}-\d{2}-\d{2}$/]. *)
Definition is_iso_date (s : string) : bool :=
  match chars_of_string s with
  | [y1; y2; y3; y4; h1; m1; m2; h2; d1; d2] =>
      is_digit y1 && is_digit y2 && is_digit y3 && is_digit y4 &&
      Ascii.eqb h1 "-" && is_digit m1 && is_digit m2 &&
      Ascii.eqb h2 "-" && is_digit d1 && is_digit d2
  | _ => false
  end.

(** A date-only ISO string, read as year, month and day. *)
Definition read_iso_date (s : string) : option (Z * Z * Z) :=
  if is_iso_date s then
    match chars_of_string s with
    | [y1; y2; y3; y4; _; m1; m2; _; d1; d2] =>
        Some (digits_value (digit_value <$> [y1; y2; y3; y4]),
              digits_value (digit_value <$> [m1; m2]),
              digits_value (digit_value <$> [d1; d2]))
    | _ => None
    end
  else None.

(** A string of the form M/D/YYYY (one or two digits, one or two digits, four
    digits), read as year, month and day. *)
Definition read_mdy (s : string) : option (Z * Z * Z) :=
  let '(ms, r1) := take_digits s in
  match r1 with
  | String "/" r2 =>
      let '(ds, r3) := take_digits r2 in
      match r3 with
      | String "/" r4 =>
          let '(ys, r5) := take_digits r4 in
          if ((length ms =? 1) || (length ms =? 2))%nat &&
             ((length ds =? 1) || (length ds =? 2))%nat &&
             (length ys =? 4)%nat && String.eqb r5 ""
          then Some (digits_value ys, digits_value ms, digits_value ds)
          else None
      | _ => None
      end
  | _ => None
  end.

(** A host whose local time is [offset] minutes ahead of UTC, on the two date
    formats the claim forms produce.  The date-only ISO form is UTC midnight
    (the language's date-time string format).  M/D/YYYY is outside that
    format; V8, SpiderMonkey and JavaScriptCore all read it as midnight in
    the local time zone.  Any other string, and a day that is not in the
    calendar, is an invalid date here. *)
Definition host_Date_parse (offset : Z) (s : string) : option Z :=
  match read_iso_date s with
  | Some (y, m, d) =>
      if valid_date y m d then Some (days_from_civil y m d * msPerDay)
      else None
  | None =>
      match read_mdy s with
      | Some (y, m, d) =>
          if valid_date y m d
          then Some (days_from_civil y m d * msPerDay - offset * 60000)
          else None
      | None => None
      end
  end.

Definition host (offset : Z) : Engine :=
  {| Date_parse := host_Date_parse offset |}.

End JS.

(** ** The API client (services/claimService.ts, in frontend/src/App.tsx) *)

Module ClaimService.
Import JS.

(** The body of a server reply, or the object the client builds on failure:
    the uniform [{success, data, message, error}] shape.  [data] is [None]
    for [null]. *)
Record response := {
  success : bool;
  data : option object;
  message : option string;
  error : option string;
}.

(** The error axios rejects with: a time-out or a connection failure has a
    [code] and no [response]; a reply outside 2xx has the [status] of its
    [response]. *)
Record axios_error := {
  err_message : string;
  err_code : option string;
  err_status : option Z;
}.

(** How one request ends: axios resolves with the reply's body on a 2xx
    status and rejects otherwise. *)
Inductive attempt :=
  | Fulfilled (body : response)
  | Rejected (e : axios_error).

(** The server as the client sees it: the outcome of the [n]-th PUT of an
    update (counted from 0), and of a GET of one claim. *)
Record network := {
  put : nat -> string -> object -> attempt;
  get_claim : string -> attempt;
}.

(** What an update does on the network, in order. *)
Inductive event :=
  | Put (id : string) (payload : object)
  | Sleep (ms : Z)
  | Get (id : string).

(** [message || fallback]. *)
Definition message_or (m : string) (fallback : string) : string :=
  if String.eqb m "" then fallback else m.

Definition fetchClaimById (net : network) (id : string) : response :=
  match get_claim net id with
  | Fulfilled body => body
  | Rejected e =>
      {| success := false;
         error := Some ("Failed to fetch claim with ID " +:+ id);
         message := Some (message_or (err_message e) "Network error");
         data := None |}
  end.

Definition formatDateValue `{Engine} (value : jsval) : jsval :=
  if negb (truthy value) then value
  else
    match value with
    | JStr s =>
        if is_iso_date s then value
        else
          match new_Date value with
          | Some t => JStr (split_head "T" (toISOString t))
          | None => value
          end
    | _ => value
    end.

Definition numericFields : list string :=
  [ "charge_amt"; "allowed_amt"; "allowed_add_amt"; "allowed_exp_amt";
    "total_amt"; "charges_adj_amt"; "write_off_amt"; "bal_amt"; "reimb_pct";
    "prim_amt"; "prim_chk_amt"; "sec_amt"; "sec_chk_amt"; "pat_amt" ].

Definition dateFields : list string :=
  [ "charge_dt"; "prim_post_dt"; "prim_recv_dt";
    "sec_post_dt"; "sec_recv_dt"; "pat_recv_dt" ].

Definition legacyFields : list string :=
  [ "checkNumber"; "amount"; "status"; "updatedAt"; "createdAt" ].

(** What the loop over [numericFields] leaves in a field that held [v]. *)
Definition numeric_value (v : jsval) : jsval :=
  if negb (strict_eq v JUndefined) && negb (strict_eq v JNull) then
    if strict_eq v (JStr "") then JNull
    else
      let numVal := parseFloat v in
      if negb (isNaN numVal) then JNum numVal else v
  else v.

(** What the loop over [dateFields] leaves in a field that held [v]. *)
Definition date_value `{Engine} (v : jsval) : jsval :=
  if negb (strict_eq v JUndefined) then
    if strict_eq v JNull || strict_eq v (JStr "") then JNull
    else formatDateValue v
  else v.

(** The body of the loop over [numericFields]. *)
Definition format_numeric (sanitizedData : object) (field : string) : object :=
  let v := get sanitizedData field in
  if negb (strict_eq v JUndefined) && negb (strict_eq v JNull) then
    if strict_eq v (JStr "") then <[field := JNull]> sanitizedData
    else
      let numVal := parseFloat v in
      if negb (isNaN numVal) then <[field := JNum numVal]> sanitizedData
      else sanitizedData
  else sanitizedData.

(** The body of the loop over [dateFields]. *)
Definition format_date `{Engine} (sanitizedData : object) (field : string)
  : object :=
  let v := get sanitizedData field in
  if negb (strict_eq v JUndefined) then
    if strict_eq v JNull || strict_eq v (JStr "")
    then <[field := JNull]> sanitizedData
    else <[field := formatDateValue v]> sanitizedData
  else sanitizedData.

(** The body of the loop over [legacyFields]. *)
Definition remove_legacy (sanitizedData : object) (field : string) : object :=
  match sanitizedData !! field with
  | Some _ => delete field sanitizedData
  | None => sanitizedData
  end.

(** The payload of the PUT: the first half of [updateClaim]'s [try] block. *)
Definition sanitize `{Engine} (data : object) : object :=
  let sanitizedData := data in
  let sanitizedData := foldl format_numeric sanitizedData numericFields in
  let sanitizedData := foldl format_date sanitizedData dateFields in
  foldl remove_legacy sanitizedData legacyFields.

(** The properties of the request body as [JSON.stringify] writes them. *)
Definition wire (payload : object) : object :=
  omap json_property payload.

(** A number or [null]. *)
Definition number_or_null (v : jsval) : bool :=
  match v with
  | JNull | JNum _ => true
  | _ => false
  end.

(** The failures the specification calls transient: no reply at all (a
    time-out, a reset connection) or a 5xx status. *)
Definition spec_transient (e : axios_error) : bool :=
  match err_status e with
  | None => true
  | Some status => (500 <=? status) && (status <=? 599)
  end.

(** The failure object [updateClaim] returns once the retries are used up. *)
Definition update_failure (id : string) (e : axios_error) : response :=
  {| success := false;
     error := Some ("Failed to update claim with ID " +:+ id);
     message := Some (message_or (err_message e) "Network error");
     data := None |}.

(** [k] failed attempts, each followed by the pause, then one more PUT. *)
Definition attempts (id : string) (payload : object) (k : nat) : list event :=
  mjoin (replicate k [Put id payload; Sleep 1500]) ++ [Put id payload].

(** [updateClaim(id, data, retries)], on its [n]-th attempt: the reply and
    what went over the network.  [retries] is a count, as the callers pass
    it (the default is 1). *)
Fixpoint updateClaim `{Engine} (net : network) (n : nat)
    (id : string) (data : object) (retries : nat) : response * list event :=
  let sanitizedData := sanitize data in
  match put net n id sanitizedData with
  | Fulfilled body => (body, [Put id sanitizedData])
  | Rejected e =>
      match retries with
      | S retries' =>
          let '(r, evs) := updateClaim net (S n) id data retries' in
          (r, Put id sanitizedData :: Sleep 1500 :: evs)
      | O => (update_failure id e, [Put id sanitizedData])
      end
  end.

(** One row of the change log, as the history endpoints return it. *)
Record ChangeLog := {
  log_id : Z;
  log_claim_id : Z;
  log_user_id : jsval;
  username : string;
  field_name : string;
  old_value : option string;
  new_value : option string;
  timestamp : string;
}.

Record history_response := {
  h_success : bool;
  h_data : list ChangeLog;
  h_message : option string;
}.

(** The outcome of the GET of a claim's history; the body is [None] when the
    reply is the JSON value [null]. *)
Inductive history_attempt :=
  | HFulfilled (body : option history_response)
  | HRejected (e : axios_error).

(** [fetchClaimHistory(id)], against a server that answers the GET of the
    history of claim [id] with [get_history id]. *)
Definition fetchClaimHistory (get_history : string -> history_attempt)
    (id : string) : option history_response :=
  match get_history id with
  | HFulfilled body => body
  | HRejected e =>
      Some {| h_success := false;
              h_message := Some (message_or (err_message e) "Network error");
              h_data := [] |}
  end.

End ClaimService.

(** ** The state manager (contexts/ClaimContext.tsx, in
    frontend/src/contexts/AuthContext.tsx) *)

Module ClaimContext.
Import JS.

(** A claim held by the UI is an object with the properties
    [mapApiClaimToVisitClaim] gives it. *)
Abbreviation VisitClaim := (gmap string jsval).

(** [v?.toString()]. *)
Definition opt_toString (v : jsval) : jsval :=
  match v with
  | JUndefined | JNull => JUndefined
  | _ => JStr (to_string v)
  end.

(** [v !== undefined && v !== null ? v : null]. *)
Definition or_null (v : jsval) : jsval :=
  if negb (strict_eq v JUndefined) && negb (strict_eq v JNull)
  then v else JNull.

(** The property names of a claim row that [mapApiClaimToVisitClaim] copies
    with [|| null], and those it copies with the [!== undefined && !== null]
    test. *)
Definition nullable_fields : list string :=
  [ "patient_emr_no"; "cpt_code"; "date_of_birth"; "service_start";
    "claim_status_type"; "icd_code"; "provider_name"; "units";
    "oa_claim_id"; "oa_visit_id"; "charge_dt";
    "prim_ins"; "prim_post_dt"; "prim_chk_det"; "prim_recv_dt"; "prim_cmt";
    "sec_ins"; "sec_post_dt"; "sec_chk_det"; "sec_recv_dt"; "sec_cmt";
    "sec_denial_code"; "pat_recv_dt" ].

Definition amount_fields : list string :=
  [ "charge_amt"; "allowed_amt"; "allowed_add_amt"; "allowed_exp_amt";
    "total_amt"; "charges_adj_amt"; "write_off_amt"; "bal_amt"; "reimb_pct";
    "prim_amt"; "prim_chk_amt"; "sec_amt"; "sec_chk_amt"; "pat_amt" ].

(** [mapApiClaimToVisitClaim(apiClaim)], evaluated at time [now]. *)
Definition mapApiClaimToVisitClaim (now : Z) (apiClaim : object) : VisitClaim :=
  let a := get apiClaim in
  let today := JStr (toISOString now) in
  list_to_map (
    [ ("id", a "id");
      ("patient_id", a "patient_id");
      ("cpt_id", or_else (opt_toString (a "cpt_id")) JNull);
      ("first_name", or_else (a "first_name") (JStr ""));
      ("last_name", or_else (a "last_name") (JStr ""));
      ("service_end", or_else (or_else (a "service_end") (a "dos")) JNull);
      ("claim_status", or_else (a "claim_status") (JStr "Pending")) ]
    ++ ((fun f => (f, or_else (a f) JNull)) <$> nullable_fields)
    ++ ((fun f => (f, or_null (a f))) <$> amount_fields)
    ++
    [ ("visitId",
        or_else (a "oa_visit_id") (JStr ("V" +:+ to_string (a "id"))));
      ("patientId", or_else (opt_toString (a "patient_id")) (JStr ""));
      ("patientName",
        JStr (to_string (a "first_name") +:+ " " +:+ to_string (a "last_name")));
      ("dob", or_else (a "date_of_birth") (JStr ""));
      ("dos", or_else (or_else (a "service_end") (a "dos")) (JStr ""));
      ("checkNumber",
        or_else (or_else (a "prim_chk_det") (a "sec_chk_det")) (JStr ""));
      ("amount", or_else (a "charge_amt") (JNum (Finite 0 0)));
      ("status", or_else (a "claim_status") (JStr "Pending"));
      ("createdAt", or_else (a "charge_dt") today);
      ("updatedAt",
        or_else (or_else (a "prim_post_dt") (a "sec_post_dt")) today);
      ("notes", JStrings []) ]).

(** The property names [mapApiClaimToVisitClaim] lists as database fields,
    and the ones it lists after them as legacy fields kept for backward
    compatibility. *)
Definition database_fields : list string :=
  [ "id"; "patient_id"; "cpt_id"; "first_name"; "last_name"; "service_end";
    "claim_status" ] ++ nullable_fields ++ amount_fields.

Definition legacy_fields : list string :=
  [ "visitId"; "patientId"; "patientName"; "dob"; "dos"; "checkNumber";
    "amount"; "status"; "createdAt"; "updatedAt"; "notes" ].

(** The provider's state. *)
Record state := {
  claims : list VisitClaim;
  searchResults : list VisitClaim;
  currentClaim : option VisitClaim;
  isLoading : bool;
  error : option string;
}.

(** The signed-in user of the auth context. *)
Record User := { user_id : string; user_name : string }.

Definition setIsLoading (b : bool) (s : state) : state :=
  {| claims := claims s; searchResults := searchResults s;
     currentClaim := currentClaim s; isLoading := b; error := error s |}.

Definition setError (e : option string) (s : state) : state :=
  {| claims := claims s; searchResults := searchResults s;
     currentClaim := currentClaim s; isLoading := isLoading s; error := e |}.

Definition setCurrentClaim (c : option VisitClaim) (s : state) : state :=
  {| claims := claims s; searchResults := searchResults s;
     currentClaim := c; isLoading := isLoading s; error := error s |}.

(** [setClaims(prev => f(prev))] and [setSearchResults(prev => f(prev))]. *)
Definition setClaims (f : list VisitClaim -> list VisitClaim) (s : state)
  : state :=
  {| claims := f (claims s); searchResults := searchResults s;
     currentClaim := currentClaim s; isLoading := isLoading s;
     error := error s |}.

Definition setSearchResults (f : list VisitClaim -> list VisitClaim)
    (s : state) : state :=
  {| claims := claims s; searchResults := f (searchResults s);
     currentClaim := currentClaim s; isLoading := isLoading s;
     error := error s |}.

(** [list.map(c => c.id === id ? replacement : c)]. *)
Definition replace_by_id (id : jsval) (replacement : VisitClaim)
    (l : list VisitClaim) : list VisitClaim :=
  (fun c => if strict_eq (get c "id") id then replacement else c) <$> l.

(** The three state updates that put [c] in place of the claim with [id]. *)
Definition put_claim (id : jsval) (c : VisitClaim) (s : state) : state :=
  setSearchResults (replace_by_id id c)
    (setClaims (replace_by_id id c) (setCurrentClaim (Some c) s)).

(** What the loop of [formatDateFields] leaves in a field that held [v]. *)
Definition formatted_date `{Engine} (v : jsval) : jsval :=
  if truthy v then
    match new_Date v with
    | Some t => JStr (split_head "T" (toISOString t))
    | None => v
    end
  else v.

(** The body of the loop of [formatDateFields]. *)
Definition format_date_field `{Engine} (formattedData : object)
    (field : string) : object :=
  let v := get formattedData field in
  if truthy v then
    match new_Date v with
    | Some t => <[field := JStr (split_head "T" (toISOString t))]> formattedData
    | None => formattedData
    end
  else formattedData.

Definition formatDateFields `{Engine} (data : object) : object :=
  foldl format_date_field data ClaimService.dateFields.

(** [id.toString()]: a TypeError when the id is [undefined] or [null]. *)
Definition id_toString (id : jsval) : string + string :=
  match id with
  | JUndefined =>
      inr "Cannot read properties of undefined (reading 'toString')"
  | JNull => inr "Cannot read properties of null (reading 'toString')"
  | _ => inl (to_string id)
  end.

(** [{...formattedData, user_id: user?.id || 1, username: user?.name || 'System'}]. *)
Definition with_user_info (user : option User) (formattedData : object)
  : object :=
  let uid :=
    match user with
    | Some u => or_else (JStr (user_id u)) (JNum (Finite 1 0))
    | None => JNum (Finite 1 0)
    end in
  let uname :=
    match user with
    | Some u => or_else (JStr (user_name u)) (JStr "System")
    | None => JStr "System"
    end in
  <["username" := uname]> (<["user_id" := uid]> formattedData).

(** [{...currentClaim, ...formattedData}]: the later spread wins. *)
Definition merge (currentClaim : VisitClaim) (formattedData : object)
  : VisitClaim :=
  formattedData ∪ currentClaim.

(** The state after the optimistic updates, which is the state the provider
    holds while the API call is in flight. *)
Definition optimistic `{Engine} (currentClaim : VisitClaim)
    (updatedClaimData : object) (s : state) : state :=
  put_claim (get currentClaim "id")
    (merge currentClaim (formatDateFields updatedClaimData)) s.

(** [response.success && response.data]: the row of a reply that reports
    success and carries one. *)
Definition succeeded (response : ClaimService.response) : option object :=
  if ClaimService.success response then ClaimService.data response else None.

(** [response.message || 'Failed to update claim in database']. *)
Definition failure_message (response : ClaimService.response) : string :=
  ClaimService.message_or (default "" (ClaimService.message response))
    "Failed to update claim in database".

(** What a call of the provider's [updateClaim] leaves behind: the state
    while the API call was in flight (when one was made), what went over the
    network, the final state, and the claim the promise
    resolves with or the message of the error it rejects with. *)
Record outcome := {
  in_flight : option state;
  events : list ClaimService.event;
  final : state;
  result : VisitClaim + string;
}.

(** The [catch] and [finally] blocks: the error is stored and thrown on. *)
Definition fail (in_flight : option state) (events : list ClaimService.event)
    (msg : string) (s : state) : outcome :=
  {| in_flight := in_flight; events := events;
     final := setIsLoading false (setError (Some msg) s);
     result := inr msg |}.

(** The provider's [updateClaim(updatedClaimData)], run at time [now] against
    [net] in state [s]. *)
Definition updateClaim `{Engine} (net : ClaimService.network) (now : Z)
    (user : option User) (updatedClaimData : object) (s : state) : outcome :=
  let s := setError None (setIsLoading true s) in
  match currentClaim s with
  | None => fail None [] "No current claim selected to update" s
  | Some cur =>
      let formattedData := formatDateFields updatedClaimData in
      let claimWithUserInfo := with_user_info user formattedData in
      let s := optimistic cur updatedClaimData s in
      match id_toString (get cur "id") with
      | inr type_error => fail None [] type_error s
      | inl id =>
          let '(response, evs) :=
            ClaimService.updateClaim net 0 id claimWithUserInfo 3 in
          match succeeded response with
          | Some row =>
              let mappedClaim := mapApiClaimToVisitClaim now row in
              {| in_flight := Some s; events := evs;
                 final :=
                   setIsLoading false
                     (put_claim (get mappedClaim "id") mappedClaim s);
                 result := inl mappedClaim |}
          | None =>
              let errorMsg := failure_message response in
              let s' := setError (Some errorMsg) s in
              let original := ClaimService.fetchClaimById net id in
              let s' :=
                match succeeded original with
                | Some row =>
                    put_claim (get cur "id")
                      (mapApiClaimToVisitClaim now row) s'
                | None => s'
                end in
              fail (Some s) (evs ++ [ClaimService.Get id]) errorMsg s'
          end
      end
  end.

End ClaimContext.

(** ** The history view (components/profile/HistorySection.tsx) *)

Module HistorySection.
Import JS ClaimService.

(** Cache expiration time (5 minutes). *)
Definition CACHE_EXPIRY : Z := 5 * 60 * 1000.

Record cache_entry := { cached_data : list ChangeLog; cached_at : Z }.

(** The component's state, its [dataLoadedRef], and the module-level
    [historyCache] it shares with the other instances. *)
Record component := {
  history : list ChangeLog;
  isLoading : bool;
  error : option string;
  isExpanded : bool;
  lastFetchTime : Z;
  dataLoaded : bool;
  historyCache : gmap string cache_entry;
}.

Definition setHistory (h : list ChangeLog) (c : component) : component :=
  {| history := h; isLoading := isLoading c; error := error c;
     isExpanded := isExpanded c; lastFetchTime := lastFetchTime c;
     dataLoaded := dataLoaded c; historyCache := historyCache c |}.

Definition setIsLoading (b : bool) (c : component) : component :=
  {| history := history c; isLoading := b; error := error c;
     isExpanded := isExpanded c; lastFetchTime := lastFetchTime c;
     dataLoaded := dataLoaded c; historyCache := historyCache c |}.

Definition setError (e : option string) (c : component) : component :=
  {| history := history c; isLoading := isLoading c; error := e;
     isExpanded := isExpanded c; lastFetchTime := lastFetchTime c;
     dataLoaded := dataLoaded c; historyCache := historyCache c |}.

Definition setLastFetchTime (t : Z) (c : component) : component :=
  {| history := history c; isLoading := isLoading c; error := error c;
     isExpanded := isExpanded c; lastFetchTime := t;
     dataLoaded := dataLoaded c; historyCache := historyCache c |}.

(** [historyCache[key] = entry; dataLoadedRef.current = true]. *)
Definition remember (key : string) (entry : cache_entry) (c : component)
  : component :=
  {| history := history c; isLoading := isLoading c; error := error c;
     isExpanded := isExpanded c; lastFetchTime := lastFetchTime c;
     dataLoaded := true; historyCache := <[key := entry]> (historyCache c) |}.

(** [message?.includes(text)]. *)
Definition message_includes (m : option string) (text : string) : bool :=
  match m with
  | Some s => includes text s
  | None => false
  end.

(** The [else] branch of [response.success]: an error only for a reply that
    reports a 500 or a network error. *)
Definition report_failure (m : option string) (c : component) : component :=
  if message_includes m "status code 500" then
    setError (Some "Unable to load history right now. Please try again later.") c
  else if message_includes m "Network Error" then
    setError (Some "Network error. Please check your connection and try again.") c
  else c.

(** Whether the cache holds an entry for the claim that has not expired. *)
Definition cache_is_fresh (claimId : jsval) (now : Z) (c : component) : bool :=
  match historyCache c !! to_string claimId with
  | Some entry => now - cached_at entry <? CACHE_EXPIRY
  | None => false
  end.

(** [loadHistory(forceRefresh)] at time [now].  [seen] is the
    [lastFetchTime] the callback closed over; [get_history] is the server;
    [mounted] is [isMounted.current] once the request has ended. *)
Definition loadHistory (get_history : string -> history_attempt)
    (claimId : jsval) (seen : Z) (forceRefresh : bool) (now : Z)
    (mounted : bool) (c : component) : component :=
  let cacheKey := to_string claimId in
  if negb forceRefresh && cache_is_fresh claimId now c then
    match historyCache c !! cacheKey with
    | Some entry => setHistory (cached_data entry) c
    | None => c
    end
  else if negb forceRefresh && (now - seen <? 10000) then c
  else
    let c := setLastFetchTime now (setError None (setIsLoading true c)) in
    if negb mounted then c
    else
      match fetchClaimHistory get_history cacheKey with
      | Some response =>
          if h_success response then
            setIsLoading false
              (remember cacheKey
                 {| cached_data := h_data response; cached_at := now |}
                 (setHistory (h_data response) c))
          else
            setIsLoading false
              (setHistory [] (report_failure (h_message response) c))
      | None =>
          (* reading [success] of [null] throws: the [catch] block *)
          setIsLoading false
            (setHistory []
               (setError
                  (Some "An error occurred while loading history. Please try again later.")
                  c))
      end.

(** A fetch that did not deliver a history: the reply was not an object, or
    it reports a failure with a 500 or a network error in its message. *)
Definition fetch_failed (fetched : option history_response) : Prop :=
  match fetched with
  | None => True
  | Some response =>
      h_success response = false /\
      (message_includes (h_message response) "status code 500" = true \/
       message_includes (h_message response) "Network Error" = true)
  end.

(** What the card shows. *)
Inductive view :=
  | Collapsed
  | Loading
  | ErrorBanner (msg : string)
  | EmptyState
  | Entries (logs : list ChangeLog).

Definition render (c : component) : view :=
  if isExpanded c then
    if isLoading c then Loading
    else
      match error c with
      | Some msg =>
          if negb (String.eqb msg "") then ErrorBanner msg
          else match history c with [] => EmptyState | l => Entries l end
      | None => match history c with [] => EmptyState | l => Entries l end
      end
  else Collapsed.

End HistorySection.

(** ** The claim service behind [PUT /api/claims/:id]

    The route handler (routes/claims.ts) is not among the sources at hand;
    this module follows the contract of the update operation and of the
    change log. *)

Module Server.

(** Modelled from the spec: a stored or logged value, a text or NULL (the
    old and new value of a change-log entry are "both stored as text/null";
    "nullable fields use null (not empty string) to mean unset"). *)
Abbreviation cell := (option string).

(** Modelled from the spec: the row of a claim in the claim table, from
    column name to text; a column that has no text is NULL.  The handler
    that reads and writes it is missing from the sources. *)
Abbreviation row := (gmap string string).

(** Modelled from the spec: the change-log entry the missing handler inserts,
    "claim reference, acting user (id + display name), field name, old
    value, new value, timestamp". *)
Record ChangeLogEntry := {
  entry_claim : Z;
  entry_user_id : string;
  entry_username : string;
  entry_field : string;
  entry_old : cell;
  entry_new : cell;
  entry_time : Z;
}.

(** Modelled from the spec: the claim store the missing handler works on,
    "relational table of claim records plus a change-log table". *)
Record store := {
  claims : gmap Z row;
  change_log : list ChangeLogEntry;
}.

(** Modelled from the spec: the request of the missing handler, "a partial
    claim record keyed by claim id plus acting-user metadata". *)
Record request := {
  req_id : option Z;
  req_fields : gmap string cell;
  req_user_id : string;
  req_username : string;
}.

(** Modelled from the spec: the failures of the missing handler's update
    operation. *)
Inductive failure :=
  | NotFoundError
  | ValidationError
  | PersistenceError.

(** Modelled from the spec: the per-field rules of the missing handler, the
    known-canonical set of field names and the normalisation of an incoming
    value of a field (numeric coercion, date normalisation). *)
Record rules := {
  canonical : string -> bool;
  normalise : string -> cell -> cell;
}.

(** Modelled from the spec: the incoming values of the missing handler after
    its first step, "strips any field not in the known-canonical set" and
    normalises each remaining field. *)
Definition incoming (r : rules) (fields : gmap string cell)
  : gmap string cell :=
  map_imap (fun k v => if canonical r k then Some (normalise r k v) else None)
    fields.

(** Modelled from the spec: the fields of the missing handler's request
    "whose value actually changed", by comparing the current stored value of
    each targeted field to the incoming value. *)
Definition changed (old : row) (cells : gmap string cell) : gmap string cell :=
  filter (fun kv => old !! kv.1 <> kv.2) cells.

(** Modelled from the spec: the new row the missing handler persists, the
    targeted columns set to the incoming values and the others kept. *)
Definition persist (cells : gmap string cell) (old : row) : row :=
  merge (fun new kept => match new with Some v => v | None => kept end)
    cells old.

(** Modelled from the spec: the entries the missing handler inserts, "for
    every field whose value actually changed, one change-log entry with old
    and new values and the acting user". *)
Definition log_entries (req : request) (id : Z) (now : Z) (old : row)
    (cells : gmap string cell) : list ChangeLogEntry :=
  (fun kv =>
     {| entry_claim := id;
        entry_user_id := req_user_id req;
        entry_username := req_username req;
        entry_field := kv.1;
        entry_old := old !! kv.1;
        entry_new := kv.2;
        entry_time := now |})
  <$> map_to_list (changed old cells).

(** Modelled from the spec: the writes of the missing handler's transaction,
    the row update and one insert per change-log entry. *)
Inductive write :=
  | UpdateRow (id : Z) (cells : gmap string cell)
  | InsertLog (e : ChangeLogEntry).

(** Modelled from the spec: the effect of one write of the missing handler
    on the store. *)
Definition apply_write (w : write) (st : store) : store :=
  match w with
  | UpdateRow id cells =>
      {| claims := alter (persist cells) id (claims st);
         change_log := change_log st |}
  | InsertLog e =>
      {| claims := claims st; change_log := change_log st ++ [e] |}
  end.

(** Modelled from the spec: the missing handler's transaction, run on a
    working copy of the store; [fails n] tells whether the storage fails on
    the [n]-th write, and a failure abandons the working copy. *)
Fixpoint run (fails : nat -> bool) (n : nat) (ws : list write)
    (working : store) : option store :=
  match ws with
  | [] => Some working
  | w :: rest =>
      if fails n then None
      else run fails (S n) rest (apply_write w working)
  end.

(** Modelled from the spec: the update operation of the missing handler.
    "Fails with NotFoundError if the claim id does not exist,
    ValidationError if required identity fields are missing,
    PersistenceError on storage failure (no partial commit)"; "returns the
    full updated row". *)
Definition update (r : rules) (fails : nat -> bool) (now : Z)
    (req : request) (st : store) : store * (failure + row) :=
  match req_id req with
  | None => (st, inl ValidationError)
  | Some id =>
      match claims st !! id with
      | None => (st, inl NotFoundError)
      | Some old =>
          let cells := incoming r (req_fields req) in
          let ws :=
            UpdateRow id cells
            :: (InsertLog <$> log_entries req id now old cells) in
          match run fails 0 ws st with
          | Some committed => (committed, inr (persist cells old))
          | None => (st, inl PersistenceError)
          end
      end
  end.

(** Modelled from the spec: the rules the examples of the spec use, every
    field canonical but the legacy ones the client strips, and "an
    empty-string input for a numeric field is treated as set to null". *)
Definition example_rules : rules :=
  {| canonical := fun k => bool_decide (k ∉ ClaimService.legacyFields);
     normalise := fun k v =>
       if bool_decide (k ∈ ClaimService.numericFields)
       then (if bool_decide (v = Some "") then None else v)
       else v |}.

(** The columns whose stored value differs between two rows. *)
Definition changed_columns (before after : row) : gset string :=
  filter (fun c => before !! c <> after !! c) (dom before ∪ dom after).

End Server.

(** ** Sample data *)

Module Examples.
Import JS ClaimService.



(** A payload that carries the display name of a claim. *)
Definition stale_payload : object := {[ "patientName" := JStr "A B" ]}.

(** The rejection of a reply with status 404, and of a request that timed
    out. *)
Definition not_found : axios_error :=
  {| err_message := "Request failed with status code 404";
     err_code := Some "ERR_BAD_REQUEST";
     err_status := Some 404 |}.

Definition timed_out : axios_error :=
  {| err_message := "timeout of 15000ms exceeded";
     err_code := Some "ECONNABORTED";
     err_status := None |}.

(** A server that does not know the claim. *)
Definition net_not_found : network :=
  {| put := fun _ _ _ => Rejected not_found;
     get_claim := fun _ => Rejected not_found |}.

(** The row of claim 42 as the server holds it before and after an update
    of the charge amount to 200. *)
Definition row_before : object :=
  {[ "id" := JNum (Finite 42 0); "first_name" := JStr "Ann";
     "last_name" := JStr "Lee"; "charge_amt" := JNum (Finite 150 0) ]}.

Definition row_after : object :=
  <["charge_amt" := JNum (Finite 200 0)]> row_before.

Definition saved : response :=
  {| success := true; data := Some row_after; message := None;
     error := None |}.

(** A server whose first reply to an update is lost and whose second one
    arrives. *)
Definition net_flaky : network :=
  {| put := fun n _ _ =>
       match n with O => Rejected timed_out | _ => Fulfilled saved end;
     get_claim := fun _ => Rejected timed_out |}.

(** A server that cannot be reached at all. *)
Definition net_down : network :=
  {| put := fun _ _ _ => Rejected timed_out;
     get_claim := fun _ => Rejected timed_out |}.

(** Claim 42 as the UI holds it, next to another claim, on the profile page
    of claim 42 and with no claim selected. *)
Definition claim_42 : ClaimContext.VisitClaim :=
  ClaimContext.mapApiClaimToVisitClaim 0 row_before.

Definition claim_7 : ClaimContext.VisitClaim :=
  ClaimContext.mapApiClaimToVisitClaim 0
    {[ "id" := JNum (Finite 7 0); "first_name" := JStr "Bo" ]}.

Definition viewing_42 : ClaimContext.state :=
  {| ClaimContext.claims := [claim_7; claim_42];
     ClaimContext.searchResults := [claim_42];
     ClaimContext.currentClaim := Some claim_42;
     ClaimContext.isLoading := false;
     ClaimContext.error := None |}.

Definition nothing_selected : ClaimContext.state :=
  {| ClaimContext.claims := [claim_7; claim_42];
     ClaimContext.searchResults := [claim_42];
     ClaimContext.currentClaim := None;
     ClaimContext.isLoading := false;
     ClaimContext.error := None |}.

(** The edit of the charge amount of the current claim to 200. *)
Definition raise_charge : object := {[ "charge_amt" := JNum (Finite 200 0) ]}.

(** A server that saves the edit at once. *)
Definition net_saving : network :=
  {| put := fun _ _ _ => Fulfilled saved;
     get_claim := fun _ => Fulfilled saved |}.

(** The store with claim 42 charged 150.00, the request that empties the
    charge amount, and a storage that fails on its second write. *)
Definition store_42 : Server.store :=
  {| Server.claims := {[ 42 := {[ "charge_amt" := "150.00" ]} ]};
     Server.change_log := [] |}.

Definition clear_charge : Server.request :=
  {| Server.req_id := Some 42;
     Server.req_fields := {[ "charge_amt" := Some "" ]};
     Server.req_user_id := "user-1";
     Server.req_username := "Ann" |}.

Definition storage_ok : nat -> bool := fun _ => false.

Definition storage_fails_on_log : nat -> bool := fun n => (n =? 1)%nat.

(** A server that has no history for any claim. *)
Definition no_history : string -> history_attempt :=
  fun _ =>
    HFulfilled
      (Some {| h_success := true; h_data := []; h_message := None |}).

(** The history card of claim 42, expanded, before its first load. *)
Definition fresh_card : HistorySection.component :=
  {| HistorySection.history := [];
     HistorySection.isLoading := false;
     HistorySection.error := None;
     HistorySection.isExpanded := true;
     HistorySection.lastFetchTime := 0;
     HistorySection.dataLoaded := false;
     HistorySection.historyCache := ∅ |}.

End Examples.

(** ** More of the built-ins *)

Module Builtins.
Import JS.

(** [parseInt(v, 10)]: ToString, trim the start, a sign, the longest run of
    decimal digits; NaN when there is none. *)
Definition parseInt10 (v : jsval) : number :=
  let s := trim_start (to_string v) in
  let '(sign, r) :=
    match s with
    | String "+" r => (1, r)
    | String "-" r => (-1, r)
    | _ => (1, s)
    end in
  match take_digits r with
  | ([], _) => NaN
  | (ds, _) => Finite (sign * digits_value ds) 0
  end.

(** [s.trim()], for the ASCII white space. *)
Definition trim (s : string) : string :=
  String.rev (trim_start (String.rev (trim_start s))).

(** [c.toUpperCase()] of an ASCII character; other bytes are kept. *)
Definition to_upper (c : ascii) : ascii :=
  let n := N_of_ascii c in
  if ((97 <=? n) && (n <=? 122))%N then ascii_of_N (n - 32) else c.

(** The strings of ASCII characters only: for these a character is one
    UTF-16 code unit and [to_upper] is [toUpperCase]. *)
Fixpoint ascii_only (s : string) : bool :=
  match s with
  | EmptyString => true
  | String c r => (N_of_ascii c <? 128)%N && ascii_only r
  end.


(** [s.split(sep)] for a one-character separator. *)
Fixpoint split (sep : ascii) (s : string) : list string :=
  match s with
  | EmptyString => [""]
  | String c r =>
      if Ascii.eqb c sep then "" :: split sep r
      else
        match split sep r with
        | w :: ws => String c w :: ws
        | [] => [String c ""]
        end
  end.

End Builtins.

(** ** The read operations of the API client (services/claimService.ts) *)

Module ClaimReads.
Import JS ClaimService.

(** The body of a reply that lists claims; [l_data] is [None] when the
    data is not an array. *)
Record list_response := {
  l_success : bool;
  l_data : option (list object);
  l_message : option string;
  l_error : option string;
}.

Inductive list_attempt :=
  | LFulfilled (body : list_response)
  | LRejected (e : axios_error).

(** [if (filters.from) params.to = filters.from]. *)
Definition add_param (filters : object) (from to : string) (params : object)
  : object :=
  if truthy (get filters from) then <[to := get filters from]> params
  else params.

(** The query parameters [fetchClaims] builds from the search filters. *)
Definition claims_params (filters : option object) : object :=
  match filters with
  | None => ∅
  | Some f =>
      add_param f "dos" "service_end"
        (add_param f "cptId" "cpt_id"
           (add_param f "patientId" "patient_id" ∅))
  end.

(** [fetchClaims(filters)], against a server that answers the GET of the
    claims with the given parameters. *)
Definition fetchClaims (get_claims : object -> list_attempt)
    (filters : option object) : list_response :=
  match get_claims (claims_params filters) with
  | LFulfilled body => body
  | LRejected e =>
      {| l_success := false;
         l_error := Some "Failed to fetch claims";
         l_message := Some (message_or (err_message e) "Network error");
         l_data := Some [] |}
  end.

(** The names of the filters of [fetchAllHistory]. *)
Definition history_filters : list string :=
  [ "user_id"; "cpt_id"; "start_date"; "end_date"; "page"; "limit" ].

(** The query parameters [fetchAllHistory] builds from its filters. *)
Definition history_params (filters : option object) : object :=
  match filters with
  | None => ∅
  | Some f =>
      add_param f "limit" "limit"
        (add_param f "page" "page"
           (add_param f "end_date" "end_date"
              (add_param f "start_date" "start_date"
                 (add_param f "cpt_id" "cpt_id"
                    (add_param f "user_id" "user_id" ∅)))))
  end.

(** [fetchAllHistory(filters)]. *)
Definition fetchAllHistory (get_all : object -> history_attempt)
    (filters : option object) : option history_response :=
  match get_all (history_params filters) with
  | HFulfilled body => body
  | HRejected e =>
      Some {| h_success := false;
              h_message := Some (message_or (err_message e) "Network error");
              h_data := [] |}
  end.

End ClaimReads.

(** ** The other operations of the state manager (contexts/ClaimContext.tsx) *)

Module ClaimProvider.
Import JS Builtins ClaimContext.

(** [response.success && Array.isArray(response.data)]. *)
Definition listed (response : ClaimReads.list_response) : option (list object) :=
  if ClaimReads.l_success response then ClaimReads.l_data response else None.

(** [message || fallback] for a message that may be missing. *)
Definition message_of (m : option string) (fallback : string) : string :=
  ClaimService.message_or (default "" m) fallback.

(** [loadInitialClaims()], the effect that runs while [initialLoadDone] is
    false: the state and the flag it leaves. *)
Definition loadInitialClaims
    (get_claims : object -> ClaimReads.list_attempt) (now : Z)
    (initialLoadDone : bool) (s : state) : state * bool :=
  if initialLoadDone then (s, initialLoadDone)
  else
    let s := setError None (setIsLoading true s) in
    let response := ClaimReads.fetchClaims get_claims None in
    let s :=
      match listed response with
      | Some rows =>
          let mappedClaims := mapApiClaimToVisitClaim now <$> rows in
          setSearchResults (fun _ => mappedClaims)
            (setClaims (fun _ => mappedClaims) s)
      | None =>
          setSearchResults (fun _ => [])
            (setClaims (fun _ => [])
               (setError
                  (Some (message_of (ClaimReads.l_message response)
                           "Failed to fetch claims")) s))
      end in
    (setIsLoading false s, true).

(** [searchClaims(filters)]. *)
Definition searchClaims (get_claims : object -> ClaimReads.list_attempt)
    (now : Z) (filters : object) (s : state) : state :=
  if isLoading s then s
  else
    let s := setError None (setIsLoading true s) in
    let response := ClaimReads.fetchClaims get_claims (Some filters) in
    let s :=
      match listed response with
      | Some rows =>
          setSearchResults (fun _ => mapApiClaimToVisitClaim now <$> rows) s
      | None =>
          setSearchResults (fun _ => [])
            (setError
               (Some (message_of (ClaimReads.l_message response)
                        "Failed to search claims")) s)
      end in
    setIsLoading false s.

(** What a call of [getClaim] leaves behind: the state, the claim the
    promise resolves with, and the requests made. *)
Record fetched := {
  after : state;
  claim : option VisitClaim;
  requests : list ClaimService.event;
}.

(** [getClaim(id)]. *)
Definition getClaim (net : ClaimService.network) (now : Z) (id : string)
    (s : state) : fetched :=
  if isLoading s then
    {| after := s; claim := currentClaim s; requests := [] |}
  else
    let s := setError None (setIsLoading true s) in
    let numericId := parseInt10 (JStr id) in
    match find (fun c => strict_eq (get c "id") (JNum numericId)) (claims s) with
    | Some c =>
        {| after := setIsLoading false (setCurrentClaim (Some c) s);
           claim := Some c; requests := [] |}
    | None =>
        let response := ClaimService.fetchClaimById net id in
        match succeeded response with
        | Some row =>
            let c := mapApiClaimToVisitClaim now row in
            {| after := setIsLoading false (setCurrentClaim (Some c) s);
               claim := Some c; requests := [ClaimService.Get id] |}
        | None =>
            let s :=
              setError
                (Some (message_of (ClaimService.message response)
                         ("Failed to fetch claim with ID: " +:+ id))) s in
            {| after := setIsLoading false (setCurrentClaim None s);
               claim := None; requests := [ClaimService.Get id] |}
        end
    end.

(** [notes ? [...notes, note] : [note]]: spreading a string gives its
    characters, and a value that cannot be iterated throws ([None]). *)
Definition append_note (notes : jsval) (note : string) : option jsval :=
  if truthy notes then
    match notes with
    | JStrings l => Some (JStrings (l ++ [note]))
    | JStr s =>
        Some (JStrings (((fun c => String c "") <$> chars_of_string s)
                        ++ [note]))
    | _ => None
    end
  else Some (JStrings [note]).

(** [addNote(claimId, note)] at time [now]; [None] when it throws. *)
Definition addNote (now : Z) (claimId note : string) (s : state)
  : option state :=
  match currentClaim s with
  | Some cur =>
      if strict_eq (get cur "id") (JNum (parseInt10 (JStr claimId))) then
        match append_note (get cur "notes") note with
        | Some notes =>
            let updatedClaim :=
              <["updatedAt" := JStr (toISOString now)]>
                (<["notes" := notes]> cur) in
            Some (put_claim (get updatedClaim "id") updatedClaim s)
        | None => None
        end
      else Some s
  | None => Some s
  end.

End ClaimProvider.

(** ** The auth context (contexts/AuthContext.tsx) *)

Module AuthContext.
Import JS.

Record User := {
  id : string;
  name : string;
  email : string;
  role : string;
  avatar : string;
}.

(** What the login form has looked up for the credentials. *)
Record UserData := { ud_name : string; ud_role : string }.

Record LoginCredentials := {
  cred_email : string;
  cred_userData : option UserData;
}.

Record AuthState := {
  user : option User;
  isAuthenticated : bool;
  isLoading : bool;
}.

(** The state the provider starts with. *)
Definition signed_out : AuthState :=
  {| user := None; isAuthenticated := false; isLoading := false |}.

(** The user [login] builds. *)
Definition user_of (credentials : LoginCredentials) (data : UserData) : User :=
  {| id := if String.eqb (ud_role data) "Admin" then "admin-1" else "user-1";
     name := ud_name data;
     email := cred_email credentials;
     role := ud_role data;
     avatar := "https://i.pravatar.cc/150?u=" +:+ cred_email credentials |}.

(** [login(credentials)]: the state while the timer runs, the state once it
    has fired, and what the promise resolves with. *)
Definition login (credentials : LoginCredentials) (st : AuthState)
  : AuthState * AuthState * bool :=
  let pending :=
    {| user := user st; isAuthenticated := isAuthenticated st;
       isLoading := true |} in
  match cred_userData credentials with
  | Some data =>
      (pending,
       {| user := Some (user_of credentials data); isAuthenticated := true;
          isLoading := false |},
       true)
  | None =>
      (pending,
       {| user := user pending; isAuthenticated := isAuthenticated pending;
          isLoading := false |},
       false)
  end.

Definition logout (st : AuthState) : AuthState := signed_out.

(** The user as the claim provider reads it from [useAuth()]. *)
Definition editor (st : AuthState) : option ClaimContext.User :=
  (fun u => {| ClaimContext.user_id := id u; ClaimContext.user_name := name u |})
  <$> user st.

End AuthContext.

(** ** The field labels of the history view (HistorySection.tsx) *)

Module HistoryView.
Import JS Builtins.

(** [word.charAt(0).toUpperCase() + word.slice(1)]. *)
Definition capitalize (word : string) : string :=
  match word with
  | String c r => String (to_upper c) r
  | EmptyString => ""
  end.

(** [formatFieldName(fieldName)]. *)
Definition formatFieldName (fieldName : string) : string :=
  join " " (capitalize <$> split "_" fieldName).

(** The number of characters of the words, with one separator after each
    word. *)
Definition measure (ws : list string) : nat :=
  foldr (fun w acc => (String.length w + 1 + acc)%nat) 0%nat ws.

End HistoryView.

(** ** The claim forms (components/profile/ClaimTabs.tsx) *)

Module ClaimTabs.
Import JS Builtins ClaimContext.

Record ClaimDetailsForm := {
  oaClaimId : string;
  oaVisitId : string;
  chargeDt : string;
  chargeAmount : string;
}.

Record PrimaryInsuranceForm := {
  primIns : string;
  primAmt : string;
  primPostDt : string;
  primChkDetails : string;
  primRecDt : string;
  primChkAmt : string;
  primCmnt : string;
  primDenialCode : string;
}.

Record SecondaryInsuranceForm := {
  secIns : string;
  secAmt : string;
  secPostDt : string;
  secChkDetails : string;
  secRecDt : string;
  secChkAmt : string;
  secCmnt : string;
  patAmt : string;
  patRecDt : string;
  secDenialCode : string;
}.

(** The message the tabs show after a save. *)
Inductive feedback :=
  | Saved (message : string)
  | Failed (message : string).

(** [s.trim() !== '']. *)
Definition filled (s : string) : bool := negb (String.eqb (trim s) "").

Definition isClaimDetailsComplete (f : ClaimDetailsForm) : bool :=
  filled (oaClaimId f) && filled (oaVisitId f) && filled (chargeDt f)
  && filled (chargeAmount f).

(** [s.trim() || null]. *)
Definition trimmed_or_null (s : string) : jsval :=
  or_else (JStr (trim s)) JNull.

(** [s ? parseFloat(s) : null]. *)
Definition amount_or_null (s : string) : jsval :=
  if truthy (JStr s) then JNum (parseFloat (JStr s)) else JNull.

(** [s && s.trim() !== '' ? parseFloat(s) : null]. *)
Definition filled_amount_or_null (s : string) : jsval :=
  if truthy (JStr s) && filled s then JNum (parseFloat (JStr s)) else JNull.

(** The update object of [handleSaveClaimDetails]. *)
Definition claimDetailsUpdate (claim : VisitClaim) (f : ClaimDetailsForm)
  : object :=
  list_to_map
    [ ("id", get claim "id");
      ("oa_claim_id", JStr (oaClaimId f));
      ("oa_visit_id", JStr (oaVisitId f));
      ("charge_dt", JStr (chargeDt f));
      ("charge_amt",
        or_else (JNum (parseFloat (JStr (chargeAmount f))))
                (JNum (Finite 0 0))) ].

(** The update object of [handleSavePrimary]. *)
Definition primaryUpdate (claim : VisitClaim) (f : PrimaryInsuranceForm)
  : object :=
  list_to_map
    [ ("id", get claim "id");
      ("prim_ins", trimmed_or_null (primIns f));
      ("prim_amt", amount_or_null (primAmt f));
      ("prim_post_dt", trimmed_or_null (primPostDt f));
      ("prim_chk_det", trimmed_or_null (primChkDetails f));
      ("prim_recv_dt", trimmed_or_null (primRecDt f));
      ("prim_chk_amt", amount_or_null (primChkAmt f));
      ("prim_cmt", trimmed_or_null (primCmnt f));
      ("claim_status_type", trimmed_or_null (primDenialCode f)) ].

(** The update object of [handleSaveSecondary]. *)
Definition secondaryUpdate (claim : VisitClaim) (f : SecondaryInsuranceForm)
  : object :=
  list_to_map
    [ ("id", get claim "id");
      ("sec_ins", trimmed_or_null (secIns f));
      ("sec_amt", filled_amount_or_null (secAmt f));
      ("sec_post_dt", trimmed_or_null (secPostDt f));
      ("sec_chk_det", trimmed_or_null (secChkDetails f));
      ("sec_recv_dt", trimmed_or_null (secRecDt f));
      ("sec_chk_amt", filled_amount_or_null (secChkAmt f));
      ("sec_cmt", trimmed_or_null (secCmnt f));
      ("pat_amt", filled_amount_or_null (patAmt f));
      ("pat_recv_dt", trimmed_or_null (patRecDt f)) ].

(** The feedback after [updateClaim] has resolved or rejected. *)
Definition feedback_of (out : outcome) (saved failed : string) : feedback :=
  match result out with
  | inl _ => Saved saved
  | inr _ => Failed failed
  end.

(** [handleSaveClaimDetails()]: the feedback, and what the provider's
    [updateClaim] did when it was called. *)
Definition handleSaveClaimDetails `{Engine} (net : ClaimService.network)
    (now : Z) (user : option User) (claim : VisitClaim)
    (f : ClaimDetailsForm) (s : state) : feedback * option outcome :=
  if negb (isClaimDetailsComplete f) then
    (Failed "Please fill in all required fields in the Claim Details tab.",
     None)
  else
    let out := updateClaim net now user (claimDetailsUpdate claim f) s in
    (feedback_of out "Claim details saved successfully!"
       "An error occurred while saving claim details.",
     Some out).

(** [handleSavePrimary()]. *)
Definition handleSavePrimary `{Engine} (net : ClaimService.network)
    (now : Z) (user : option User) (claim : VisitClaim)
    (f : PrimaryInsuranceForm) (s : state) : feedback * outcome :=
  let out := updateClaim net now user (primaryUpdate claim f) s in
  (feedback_of out "Primary insurance details saved successfully!"
     "An error occurred while saving primary insurance details.",
   out).

(** [handleSaveSecondary()]. *)
Definition handleSaveSecondary `{Engine} (net : ClaimService.network)
    (now : Z) (user : option User) (claim : VisitClaim)
    (f : SecondaryInsuranceForm) (s : state) : feedback * outcome :=
  let out := updateClaim net now user (secondaryUpdate claim f) s in
  (feedback_of out "Secondary insurance details saved successfully!"
     "An error occurred while saving secondary insurance details.",
   out).

End ClaimTabs.

(** ** The status control (components/profile/SummaryCard.tsx) *)

Module SummaryCard.
Import JS ClaimContext.

Definition claimStatusOptions : list string :=
  [ "Claim not filed"; "Claim not received from HBox"; "Deductible Applied";
    "High Copay Writeoff"; "Inpatient for DOS"; "Insurance Paid";
    "Multiple Provider enrollment"; "No Sec Ins"; "Patient Deceased";
    "Policy Inactive"; "Prim Denied"; "Prim Pymt Pending";
    "Program not covered"; "Sec Denied. Prim Paid more than Allowed amt";
    "Sec not paying"; "Sec Pymt Pending" ].

(** The legacy status that goes with a claim status. *)
Definition legacy_status (selectedStatus : string) : string :=
  if String.eqb selectedStatus "Posted" || String.eqb selectedStatus "Pending"
     || String.eqb selectedStatus "Rejected"
  then selectedStatus else "Pending".

(** The update object of [handleSaveStatus]. *)
Definition statusUpdate (now : Z) (claim : VisitClaim)
    (selectedStatus : string) : object :=
  list_to_map
    [ ("id", get claim "id");
      ("claim_status", JStr selectedStatus);
      ("claim_status_type", get claim "claim_status_type");
      ("status", JStr (legacy_status selectedStatus));
      ("updatedAt", JStr (toISOString now)) ].

(** [handleSaveStatus()]: what the provider's [updateClaim] did, when a
    status was selected. *)
Definition handleSaveStatus `{Engine} (net : ClaimService.network)
    (now : Z) (user : option User) (claim : VisitClaim)
    (selectedStatus : string) (s : state) : option outcome :=
  if truthy (JStr selectedStatus) then
    Some (updateClaim net now user (statusUpdate now claim selectedStatus) s)
  else None.

End SummaryCard.

(** ** The connection log of the database pool (backend/src/config/db.ts) *)

Module Db.

(** Log at most once per minute. *)
Definition logThrottleInterval : Z := 60000.

Record log_state := {
  connectionCount : Z;
  logThrottleTime : Z;
}.

(** One [connect] event of the pool: what [Date.now()] gives where the
    handler compares the time, and where it stores it. *)
Record connect_event := { checked : Z; stamped : Z }.

(** The handler of [pool.on('connect')]: the new state, and whether it
    wrote a line. *)
Definition on_connect (ev : connect_event) (st : log_state)
  : log_state * bool :=
  let count := connectionCount st + 1 in
  if (count =? 1) || (logThrottleInterval <? checked ev - logThrottleTime st)
  then ({| connectionCount := count; logThrottleTime := stamped ev |}, true)
  else ({| connectionCount := count; logThrottleTime := logThrottleTime st |},
        false).

(** A run of connections: the final state and the events that were
    logged, in order. *)
Fixpoint connections (evs : list connect_event) (st : log_state)
  : log_state * list connect_event :=
  match evs with
  | [] => (st, [])
  | ev :: rest =>
      let '(st', logged) := on_connect ev st in
      let '(final, lines) := connections rest st' in
      (final, if logged then ev :: lines else lines)
  end.

(** Log lines that are each more than a minute after the line before:
    [since] is the time stored with the last line written. *)
Fixpoint spaced (since : Z) (lines : list connect_event) : Prop :=
  match lines with
  | [] => True
  | ev :: rest =>
      logThrottleInterval < checked ev - since /\ spaced (stamped ev) rest
  end.

End Db.

(** ** The life of a history card (components/profile/HistorySection.tsx) *)

Module HistoryCard.
Import JS ClaimService HistorySection.

(** An instance of the component: its state with the module-level cache,
    the claim it was given, and [isMounted.current]. *)
Record instance := {
  card : component;
  claimId : jsval;
  isMounted : bool;
}.

(** The state of the first render, over the cache as it is. *)
Definition initial (cache : gmap string cache_entry) : component :=
  {| history := []; isLoading := false; error := None; isExpanded := true;
     lastFetchTime := 0; dataLoaded := false; historyCache := cache |}.

(** [dataLoadedRef.current = false]. *)
Definition forget_loaded (c : component) : component :=
  {| history := history c; isLoading := isLoading c; error := error c;
     isExpanded := isExpanded c; lastFetchTime := lastFetchTime c;
     dataLoaded := false; historyCache := historyCache c |}.

(** The card is mounted for [claim] at time [now]: the first effect calls
    [loadHistory(false)], which closed over the [lastFetchTime] of the first
    render; the second effect sets [isMounted.current] to true; then the
    request ends. *)
Definition mount (get_history : string -> history_attempt) (claim : jsval)
    (now : Z) (cache : gmap string cache_entry) : instance :=
  {| card :=
       loadHistory get_history claim 0 false now true
         (forget_loaded (initial cache));
     claimId := claim; isMounted := true |}.

(** The mounted card is given another claim at time [now]: [loadHistory] is
    made anew and closes over the [lastFetchTime] of this render; the
    clean-up of the first effect sets [isMounted.current] to false; the
    effect runs again and calls [loadHistory(false)]; the second effect has
    no dependencies and does not run again; then the request ends. *)
Definition change_claim (get_history : string -> history_attempt)
    (claim : jsval) (now : Z) (i : instance) : instance :=
  let seen := lastFetchTime (card i) in
  {| card :=
       loadHistory get_history claim seen false now false
         (forget_loaded (card i));
     claimId := claim; isMounted := false |}.

End HistoryCard.

(** ** More sample data *)

Module Samples.
Import JS ClaimService Examples.

(** Two administrators and the credentials they log in with. *)
Definition ann : AuthContext.UserData :=
  {| AuthContext.ud_name := "Ann"; AuthContext.ud_role := "Admin" |}.

Definition ann_logs_in : AuthContext.LoginCredentials :=
  {| AuthContext.cred_email := "ann@hbox.ai";
     AuthContext.cred_userData := Some ann |}.

(** The claims list with claim 42 in it, idle. *)
Definition idle_42 : ClaimContext.state := viewing_42.


(** A history with one entry, and a server that returns it. *)
Definition one_change : ChangeLog :=
  {| log_id := 1; log_claim_id := 42; log_user_id := JStr "admin-1";
     username := "Ann"; field_name := "charge_amt";
     old_value := Some "150.00"; new_value := None;
     timestamp := "2025-03-04T18:30:00.000Z" |}.

Definition history_of_42 : string -> history_attempt :=
  fun _ =>
    HFulfilled
      (Some {| h_success := true; h_data := [one_change];
               h_message := None |}).

Definition history_down : string -> history_attempt :=
  fun _ => HRejected timed_out.

(** The card of claim 42 after a successful load at time 1000. *)
Definition loaded_card : HistorySection.component :=
  HistorySection.loadHistory history_of_42 (JNum (Finite 42 0)) 0 true 1000
    true fresh_card.

(** The card opened on claim 42, which has no history, and then given
    claim 7, twenty seconds later. *)
Definition opened_42 : HistoryCard.instance :=
  HistoryCard.mount no_history (JNum (Finite 42 0)) 20000 ∅.

Definition moved_to_7 : HistoryCard.instance :=
  HistoryCard.change_claim no_history (JNum (Finite 7 0)) 40000 opened_42.

(** The card of claim 42 with its history loaded, then given claim 7,
    which has no history. *)
Definition card_42 : HistoryCard.instance :=
  {| HistoryCard.card := loaded_card;
     HistoryCard.claimId := JNum (Finite 42 0);
     HistoryCard.isMounted := true |}.

Definition card_42_to_7 : HistoryCard.instance :=
  HistoryCard.change_claim no_history (JNum (Finite 7 0)) 50000 card_42.

(** The claim details form with an amount that is not a number. *)
Definition details_with_text : ClaimTabs.ClaimDetailsForm :=
  {| ClaimTabs.oaClaimId := "C-1"; ClaimTabs.oaVisitId := "V-1";
     ClaimTabs.chargeDt := "2025-03-04"; ClaimTabs.chargeAmount := "abc" |}.

(** Three connections: at the start, ten seconds later, two minutes
    later. *)
Definition three_connections : list Db.connect_event :=
  [ {| Db.checked := 1000; Db.stamped := 1000 |};
    {| Db.checked := 11000; Db.stamped := 11000 |};
    {| Db.checked := 121001; Db.stamped := 121002 |} ].

Definition pool_start : Db.log_state :=
  {| Db.connectionCount := 0; Db.logThrottleTime := 0 |}.

(** A server that lists the row of claim 42, and one that cannot be
    reached. *)
Definition claims_listed : object -> ClaimReads.list_attempt :=
  fun _ =>
    ClaimReads.LFulfilled
      {| ClaimReads.l_success := true;
         ClaimReads.l_data := Some [row_before];
         ClaimReads.l_message := None;
         ClaimReads.l_error := None |}.

Definition claims_down : object -> ClaimReads.list_attempt :=
  fun _ => ClaimReads.LRejected timed_out.

(** The search for the claims of patient 12. *)
Definition patient_12 : object := {[ "patientId" := JStr "12" ]}.

(** The primary insurance form with a blank payer, an amount that is not a
    number and a comment. *)
Definition primary_with_text : ClaimTabs.PrimaryInsuranceForm :=
  {| ClaimTabs.primIns := "  "; ClaimTabs.primAmt := "abc";
     ClaimTabs.primPostDt := ""; ClaimTabs.primChkDetails := "";
     ClaimTabs.primRecDt := ""; ClaimTabs.primChkAmt := "12.50";
     ClaimTabs.primCmnt := " paid "; ClaimTabs.primDenialCode := "" |}.

End Samples.

(** * Properties *)

(** ** The built-ins on sample inputs *)

Module JSProofs.
Import JS.

Example parseFloat_amount : parseFloat (JStr "150.50") = Finite 15050 (-2).
Proof. reflexivity. Qed.

Example parseFloat_prefix : parseFloat (JStr "  12abc") = Finite 12 0.
Proof. reflexivity. Qed.

Example parseFloat_exponent : parseFloat (JStr "-1.5e3") = Finite (-15) 2.
Proof. reflexivity. Qed.

Example parseFloat_text : parseFloat (JStr "abc") = NaN.
Proof. reflexivity. Qed.

Example parseFloat_empty : parseFloat (JStr "") = NaN.
Proof. reflexivity. Qed.

Example parseFloat_null : parseFloat JNull = NaN.
Proof. reflexivity. Qed.

Example number_to_string_amount : number_to_string (Finite 15050 (-2)) = "150.5".
Proof. reflexivity. Qed.

Example number_to_string_id : number_to_string (Finite 42 0) = "42".
Proof. reflexivity. Qed.

Example number_to_string_large : number_to_string (Finite 1 21) = "1e+21".
Proof. reflexivity. Qed.

Example number_to_string_small : number_to_string (Finite 12 (-7)) = "0.0000012".
Proof. reflexivity. Qed.

Example strict_eq_same_number :
  strict_eq (JNum (Finite 10 0)) (JNum (Finite 1 1)) = true.
Proof. reflexivity. Qed.

Example strict_eq_number_and_text :
  strict_eq (JNum (Finite 42 0)) (JStr "42") = false.
Proof. reflexivity. Qed.

Example toISOString_epoch : toISOString 0 = "1970-01-01T00:00:00.000Z".
Proof. reflexivity. Qed.

Example toISOString_evening :
  toISOString 1741113000000 = "2025-03-04T18:30:00.000Z".
Proof. reflexivity. Qed.

Example toISOString_before_epoch :
  toISOString (-1) = "1969-12-31T23:59:59.999Z".
Proof. reflexivity. Qed.

Example civil_from_days_leap : civil_from_days 11016 = (2000, 2, 29).
Proof. reflexivity. Qed.

Example days_from_civil_leap : days_from_civil 2000 2 29 = 11016.
Proof. reflexivity. Qed.

Example is_iso_date_yes : is_iso_date "2025-03-04" = true.
Proof. reflexivity. Qed.

Example is_iso_date_no : is_iso_date "3/4/2025" = false.
Proof. reflexivity. Qed.

Example host_reads_iso_as_utc :
  host_Date_parse 330 "2025-03-04" = Some 1741046400000.
Proof. reflexivity. Qed.

Example host_reads_mdy_as_local :
  host_Date_parse 330 "3/4/2025" = Some 1741026600000.
Proof. reflexivity. Qed.

Example host_rejects_text : host_Date_parse 0 "soon" = None.
Proof. reflexivity. Qed.

(** Midnight local time on a host ahead of UTC is an instant of the day
    before in UTC. *)
Lemma local_midnight_is_the_day_before (offset : Z) (s : string) (y m d : Z) :
  0 < offset <= 840 ->
  read_iso_date s = None ->
  read_mdy s = Some (y, m, d) ->
  valid_date y m d = true ->
  exists t,
    host_Date_parse offset s = Some t /\
    t / msPerDay = days_from_civil y m d - 1.
Proof.
  intros Hoff Hiso Hmdy Hvalid. unfold host_Date_parse.
  rewrite Hiso, Hmdy, Hvalid. eexists. split; [reflexivity|].
  unfold msPerDay. symmetry.
  apply (Z.div_unique_pos _ _ _ (86400000 - offset * 60000)); lia.
Qed.

End JSProofs.

(** ** Payload normalisation in the API client *)

Module ClaimServiceProofs.
Import JS ClaimService Examples.

(** A loop that rewrites one property per field name, over a list of
    distinct names, rewrites exactly the listed properties. *)
Lemma foldl_lookup (step : object -> string -> object)
    (F : option jsval -> option jsval) :
  (forall o g f,
     step o g !! f = if decide (f = g) then F (o !! f) else o !! f) ->
  forall l o f, NoDup l ->
    foldl step o l !! f = if decide (f ∈ l) then F (o !! f) else o !! f.
Proof.
  intros Hstep l. induction l as [|a l IH]; intros o f Hnd.
  - destruct (decide (f ∈ [])) as [Hin|_]; [|done].
    destruct (not_elem_of_nil _ Hin).
  - apply NoDup_cons in Hnd as [Ha Hnd]. cbn [foldl].
    rewrite IH by done. rewrite Hstep.
    destruct (decide (f = a)) as [->|Hne].
    + rewrite decide_False by done.
      rewrite decide_True; [done | apply elem_of_cons; auto].
    + destruct (decide (f ∈ l)) as [Hin|Hin].
      * rewrite decide_True; [done | apply elem_of_cons; auto].
      * rewrite decide_False; [done|].
        intros [?|?]%elem_of_cons; contradiction.
Qed.

Lemma format_numeric_lookup (o : object) (g f : string) :
  format_numeric o g !! f =
  if decide (f = g) then numeric_value <$> o !! f else o !! f.
Proof.
  unfold format_numeric, numeric_value, get.
  destruct (decide (f = g)) as [->|Hne].
  - destruct (o !! g) as [v|] eqn:Hv; cbn [from_option fmap option_fmap option_map];
      unfold id; [|rewrite ?Hv; done].
    repeat case_match; rewrite ?lookup_insert_eq; done.
  - repeat case_match; rewrite ?lookup_insert_ne; done.
Qed.

Lemma format_date_lookup `{Engine} (o : object) (g f : string) :
  format_date o g !! f =
  if decide (f = g) then date_value <$> o !! f else o !! f.
Proof.
  unfold format_date, date_value, get.
  destruct (decide (f = g)) as [->|Hne].
  - destruct (o !! g) as [v|] eqn:Hv; cbn [from_option fmap option_fmap option_map];
      unfold id; [|rewrite ?Hv; done].
    repeat case_match; rewrite ?lookup_insert_eq; done.
  - repeat case_match; rewrite ?lookup_insert_ne; done.
Qed.

Lemma remove_legacy_lookup (o : object) (g f : string) :
  remove_legacy o g !! f = if decide (f = g) then None else o !! f.
Proof.
  unfold remove_legacy.
  destruct (decide (f = g)) as [->|Hne].
  - destruct (o !! g) eqn:Hv; [by rewrite lookup_delete_eq | done].
  - destruct (o !! g); [by rewrite lookup_delete_ne | done].
Qed.

Lemma numericFields_NoDup : NoDup numericFields.
Proof. by apply (bool_decide_unpack _); vm_compute. Qed.

Lemma dateFields_NoDup : NoDup dateFields.
Proof. by apply (bool_decide_unpack _); vm_compute. Qed.

Lemma legacyFields_NoDup : NoDup legacyFields.
Proof. by apply (bool_decide_unpack _); vm_compute. Qed.

(** No field name is in two of the three lists. *)
Lemma field_lists_disjoint (f : string) :
  (f ∈ numericFields -> (f ∉ dateFields) /\ (f ∉ legacyFields)) /\
  (f ∈ dateFields -> f ∉ legacyFields).
Proof.
  split.
  - intros Hin. split; intros Hin'.
    + assert (Hd : Forall (fun g => g ∉ dateFields) numericFields)
        by (by apply (bool_decide_unpack _); vm_compute).
      rewrite Forall_forall in Hd. by apply (Hd f).
    + assert (Hd : Forall (fun g => g ∉ legacyFields) numericFields)
        by (by apply (bool_decide_unpack _); vm_compute).
      rewrite Forall_forall in Hd. by apply (Hd f).
  - intros Hin Hin'.
    assert (Hd : Forall (fun g => g ∉ legacyFields) dateFields)
      by (by apply (bool_decide_unpack _); vm_compute).
    rewrite Forall_forall in Hd. by apply (Hd f).
Qed.

(** The payload of the PUT, property by property. *)
Lemma sanitize_lookup `{Engine} (data : object) (f : string) :
  sanitize data !! f =
  if decide (f ∈ legacyFields) then None
  else if decide (f ∈ dateFields) then date_value <$> data !! f
  else if decide (f ∈ numericFields) then numeric_value <$> data !! f
  else data !! f.
Proof.
  unfold sanitize.
  rewrite (foldl_lookup remove_legacy (fun _ => None))
    by (auto using remove_legacy_lookup, legacyFields_NoDup).
  destruct (decide (f ∈ legacyFields)) as [|Hl]; [done|].
  rewrite (foldl_lookup format_date (fmap date_value))
    by (auto using format_date_lookup, dateFields_NoDup).
  rewrite (foldl_lookup format_numeric (fmap numeric_value))
    by (auto using format_numeric_lookup, numericFields_NoDup).
  destruct (decide (f ∈ dateFields)) as [Hd|Hd]; [|done].
  destruct (decide (f ∈ numericFields)) as [Hn|Hn]; [|done].
  by destruct (proj1 (field_lists_disjoint f) Hn).
Qed.

Lemma wire_sanitize_numeric `{Engine} (data : object) (f : string) (v : jsval) :
  f ∈ numericFields -> data !! f = Some v ->
  wire (sanitize data) !! f = json_property (numeric_value v).
Proof.
  intros Hf Hv. unfold wire. rewrite lookup_omap, sanitize_lookup.
  destruct (proj1 (field_lists_disjoint f) Hf) as [Hd Hl].
  rewrite !decide_False by done. rewrite decide_True by done.
  by rewrite Hv.
Qed.








(** C8, as the code has it.  The payload of the PUT is the payload of the
    call without the five legacy fields: a property is missing from it
    exactly when it is one of the five or the call did not have it. *)
Theorem only_legacy_fields_are_stripped `{Engine} (data : object) (f : string) :
  sanitize data !! f = None <-> f ∈ legacyFields \/ data !! f = None.
Proof.
  rewrite sanitize_lookup.
  destruct (decide (f ∈ legacyFields)) as [Hl|Hl]; [tauto|].
  destruct (decide (f ∈ dateFields)) as [Hd|Hd];
    [|destruct (decide (f ∈ numericFields)) as [Hn|Hn]];
    rewrite ?fmap_None; tauto.
Qed.

(** C8 as stated fails: [patientName] is one of the legacy fields of a
    claim, not a database field, and it is sent all the same. *)
Lemma legacy_display_name_is_sent :
  ("patientName" ∈ ClaimContext.legacy_fields) /\
  ("patientName" ∉ ClaimContext.database_fields) /\
  @sanitize (host 0) stale_payload !! "patientName" = Some (JStr "A B").
Proof.
  split; [|split].
  - apply (bool_decide_unpack _). vm_compute. reflexivity.
  - apply (bool_decide_unpack _). vm_compute. reflexivity.
  - vm_compute. reflexivity.
Qed.

(** *** Dates *)

Lemma is_iso_date_truthy (s : string) :
  is_iso_date s = true -> truthy (JStr s) = true.
Proof. by destruct s. Qed.

(** A value already in the form YYYY-MM-DD is returned as it is. *)
Lemma formatDateValue_canonical `{Engine} (s : string) :
  is_iso_date s = true -> formatDateValue (JStr s) = JStr s.
Proof.
  intros Hs. unfold formatDateValue.
  rewrite (is_iso_date_truthy s Hs). cbn. by rewrite Hs.
Qed.

(** A string the host cannot read as a date is returned as it is. *)
Lemma formatDateValue_unparseable `{Engine} (s : string) :
  Date_parse s = None -> formatDateValue (JStr s) = JStr s.
Proof.
  intros Hp. unfold formatDateValue.
  destruct (negb (truthy (JStr s))); [done|].
  destruct (is_iso_date s); [done|]. cbn. by rewrite Hp.
Qed.

(** A value that is not a string is returned as it is. *)
Lemma formatDateValue_not_a_string `{Engine} (v : jsval) :
  (forall s, v <> JStr s) -> formatDateValue v = v.
Proof.
  intros Hv. unfold formatDateValue.
  destruct (negb (truthy v)); [done|].
  destruct v; try done. by destruct (Hv s).
Qed.

(** Any other string becomes the UTC date of the instant the host read. *)
Lemma formatDateValue_parsed `{Engine} (s : string) (t : Z) :
  s <> "" -> is_iso_date s = false -> Date_parse s = Some t ->
  formatDateValue (JStr s) = JStr (split_head "T" (toISOString t)).
Proof.
  intros Hne Hiso Hp. unfold formatDateValue.
  destruct s; [done|]. cbn -[is_iso_date toISOString].
  rewrite Hiso. by rewrite Hp.
Qed.

Lemma sanitize_date `{Engine} (data : object) (f : string) (v : jsval) :
  f ∈ dateFields -> data !! f = Some v ->
  sanitize data !! f = Some (date_value v).
Proof.
  intros Hf Hv. rewrite sanitize_lookup.
  rewrite decide_False by (by apply field_lists_disjoint).
  rewrite decide_True by done. by rewrite Hv.
Qed.

(** The first and the last part of C4: in a date field of an update, a value
    in the form YYYY-MM-DD is sent unchanged, and so is a non-empty string
    the host cannot read as a date. *)
Lemma date_field_kept `{Engine} (data : object) (f s : string) :
  f ∈ dateFields -> data !! f = Some (JStr s) -> s <> "" ->
  is_iso_date s = true \/ Date_parse s = None ->
  sanitize data !! f = Some (JStr s).
Proof.
  intros Hf Hv Hne Hs. rewrite (sanitize_date data f _ Hf Hv).
  unfold date_value. destruct s; [done|]. cbn -[formatDateValue].
  f_equal. destruct Hs; auto using formatDateValue_canonical,
    formatDateValue_unparseable.
Qed.

Lemma forallb_seqZ (P : Z -> bool) (lo n : Z) :
  forallb P (seqZ lo n) = true -> forall z, lo <= z < lo + n -> P z = true.
Proof.
  intros Hall z Hz. rewrite forallb_forall in Hall.
  apply Hall, list_elem_of_In, elem_of_seqZ. lia.
Qed.

(** On a host at or behind UTC (offsets of -12:00 up to 00:00) the date
    3/4/2025 becomes 2025-03-04. *)
Lemma date_kept_west_of_utc (offset : Z) :
  -720 <= offset <= 0 ->
  @formatDateValue (host offset) (JStr "3/4/2025") = JStr "2025-03-04".
Proof.
  intros Hoff.
  pose (P := fun o => bool_decide
    (@formatDateValue (host o) (JStr "3/4/2025") = JStr "2025-03-04")).
  assert (Hall : forallb P (seqZ (-720) 721) = true) by (vm_compute; reflexivity).
  assert (HP : P offset = true) by (apply (forallb_seqZ P _ _ Hall); lia).
  exact (bool_decide_eq_true_1 _ HP).
Qed.

(** C4 fails on a host ahead of UTC (offsets up to +14:00): the date
    3/4/2025 in a date field of an update is sent as 2025-03-03, the day
    before.  The string is read as midnight local time, which is still the
    third of March in UTC, and [toISOString] prints the UTC date. *)
Theorem date_one_day_early_east_of_utc (offset : Z) (data : object)
    (f : string) :
  0 < offset <= 840 ->
  f ∈ dateFields ->
  data !! f = Some (JStr "3/4/2025") ->
  @sanitize (host offset) data !! f = Some (JStr "2025-03-03").
Proof.
  intros Hoff Hf Hv.
  rewrite (@sanitize_date (host offset) data f (JStr "3/4/2025") Hf Hv).
  f_equal.
  pose (P := fun o => bool_decide
    (@date_value (host o) (JStr "3/4/2025") = JStr "2025-03-03")).
  assert (Hall : forallb P (seqZ 1 840) = true) by (vm_compute; reflexivity).
  assert (HP : P offset = true) by (apply (forallb_seqZ P _ _ Hall); lia).
  exact (bool_decide_eq_true_1 _ HP).
Qed.

Lemma date_one_day_early_in_kolkata :
  0 < 330 <= 840 /\
  ("charge_dt" ∈ dateFields) /\
  @sanitize (host 330) {[ "charge_dt" := JStr "3/4/2025" ]} !! "charge_dt"
  = Some (JStr "2025-03-03").
Proof.
  assert (Hf : "charge_dt" ∈ dateFields)
    by (apply (bool_decide_unpack _); vm_compute; reflexivity).
  split; [lia|]. split; [exact Hf|].
  apply (date_one_day_early_east_of_utc 330 _ "charge_dt");
    [lia | exact Hf | reflexivity].
Defined.

(** *** Retries *)

Lemma attempts_S (id : string) (payload : object) (k : nat) :
  attempts id payload (S k)
  = Put id payload :: Sleep 1500 :: attempts id payload k.
Proof. reflexivity. Qed.

(** When the first [k] attempts fail, whatever the failure, and the next
    one is within the budget and succeeds, its reply is returned. *)
Lemma updateClaim_fulfilled `{Engine} (net : network) (id : string)
    (data : object) (body : response) (k : nat) :
  forall (n retries : nat),
  (k <= retries)%nat ->
  (forall j, (j < k)%nat ->
     exists e, put net (n + j) id (sanitize data) = Rejected e) ->
  put net (n + k) id (sanitize data) = Fulfilled body ->
  updateClaim net n id data retries = (body, attempts id (sanitize data) k).
Proof.
  induction k as [|k IH]; intros n retries Hk Hrej Hok.
  - rewrite Nat.add_0_r in Hok.
    destruct retries; cbn [updateClaim]; by rewrite Hok.
  - destruct retries as [|retries]; [lia|].
    destruct (Hrej 0%nat) as [e He]; [lia|]. rewrite Nat.add_0_r in He.
    cbn [updateClaim]. rewrite He.
    rewrite (IH (S n) retries); [by rewrite attempts_S | lia | | ].
    + intros j Hj. destruct (Hrej (S j)) as [e' He']; [lia|].
      exists e'. by rewrite <- He', Nat.add_succ_r.
    + by rewrite <- Hok, Nat.add_succ_r.
Qed.

(** When every attempt of the budget fails, the failure object carries the
    message of the last error. *)
Lemma updateClaim_exhausted `{Engine} (net : network) (id : string)
    (data : object) (e : axios_error) (retries : nat) :
  forall (n : nat),
  (forall j, (j < retries)%nat ->
     exists e', put net (n + j) id (sanitize data) = Rejected e') ->
  put net (n + retries) id (sanitize data) = Rejected e ->
  updateClaim net n id data retries
  = (update_failure id e, attempts id (sanitize data) retries).
Proof.
  induction retries as [|retries IH]; intros n Hrej Hlast.
  - rewrite Nat.add_0_r in Hlast. cbn [updateClaim]. by rewrite Hlast.
  - destruct (Hrej 0%nat) as [e0 He0]; [lia|]. rewrite Nat.add_0_r in He0.
    cbn [updateClaim]. rewrite He0.
    rewrite (IH (S n)); [by rewrite attempts_S | | ].
    + intros j Hj. destruct (Hrej (S j)) as [e' He']; [lia|].
      exists e'. by rewrite <- He', Nat.add_succ_r.
    + by rewrite <- Hlast, Nat.add_succ_r.
Qed.

(** Whatever the server does, an update is [k] failed attempts, each
    followed by the pause, and one more attempt, with [k] at most
    [retries]. *)
Lemma updateClaim_bounded `{Engine} (net : network) (id : string)
    (data : object) (retries : nat) :
  forall (n : nat),
  exists k, (k <= retries)%nat /\
    (updateClaim net n id data retries).2 = attempts id (sanitize data) k.
Proof.
  induction retries as [|retries IH]; intros n; cbn [updateClaim].
  - exists 0%nat. split; [lia|].
    by destruct (put net n id (sanitize data)).
  - destruct (put net n id (sanitize data)).
    + exists 0%nat. split; [lia | done].
    + destruct (IH (S n)) as (k & Hk & Hev).
      destruct (updateClaim net (S n) id data retries) as [r evs].
      exists (S k). split; [lia|]. cbn [snd] in *. by rewrite Hev.
Qed.

(** C5, as the code has it.  The update is attempted again after every
    failed attempt, whatever the failure, with a pause of 1500 ms before
    each new attempt and at most [retries] new attempts.  If an attempt of
    that budget succeeds its reply is the result; if none does the result is
    the failure object built from the last error. *)
Theorem updateClaim_retries_every_failure `{Engine} (net : network)
    (id : string) (data : object) (retries : nat) :
  let payload := sanitize data in
  (forall k body,
     (k <= retries)%nat ->
     (forall j, (j < k)%nat -> exists e, put net j id payload = Rejected e) ->
     put net k id payload = Fulfilled body ->
     updateClaim net 0 id data retries = (body, attempts id payload k)) /\
  (forall e,
     (forall j, (j < retries)%nat ->
        exists e', put net j id payload = Rejected e') ->
     put net retries id payload = Rejected e ->
     updateClaim net 0 id data retries
     = (update_failure id e, attempts id payload retries)) /\
  (exists k, (k <= retries)%nat /\
     (updateClaim net 0 id data retries).2 = attempts id payload k).
Proof.
  split; [|split].
  - intros k body Hk Hrej Hok. by apply updateClaim_fulfilled.
  - intros e Hrej Hlast. by apply updateClaim_exhausted.
  - apply updateClaim_bounded.
Qed.

Lemma updateClaim_retries_once_then_saved :
  @updateClaim (host 0) net_flaky 0 "42" ∅ 3
  = (saved, attempts "42" (@sanitize (host 0) ∅) 1).
Proof.
  apply (proj1 (@updateClaim_retries_every_failure (host 0) net_flaky "42" ∅ 3)
           1%nat saved).
  - lia.
  - intros j Hj. assert (j = 0%nat) as -> by lia. by exists timed_out.
  - reflexivity.
Defined.

(** C5 as stated fails: a reply with status 404 is not one of the transient
    failures, and the PUT is sent a second time after it. *)
Lemma not_found_is_retried :
  spec_transient not_found = false /\
  (@updateClaim (host 0) net_not_found 0 "42" ∅ 1).2
  = [Put "42" ∅; Sleep 1500; Put "42" ∅].
Proof. split; [reflexivity|]. vm_compute. reflexivity. Qed.

End ClaimServiceProofs.

(** ** The optimistic update protocol of the state manager *)

Module ClaimContextProofs.
Import JS ClaimContext Examples.

Lemma format_date_field_lookup `{Engine} (o : object) (g f : string) :
  format_date_field o g !! f =
  if decide (f = g) then formatted_date <$> o !! f else o !! f.
Proof.
  unfold format_date_field, formatted_date, get.
  destruct (decide (f = g)) as [->|Hne].
  - destruct (o !! g) as [v|] eqn:Hv;
      cbn [from_option fmap option_fmap option_map];
      unfold id; [|rewrite ?Hv; done].
    repeat case_match; rewrite ?lookup_insert_eq; done.
  - repeat case_match; rewrite ?lookup_insert_ne; done.
Qed.

(** [formatDateFields] rewrites the six date fields and nothing else. *)
Lemma formatDateFields_lookup `{Engine} (data : object) (f : string) :
  formatDateFields data !! f =
  if decide (f ∈ ClaimService.dateFields)
  then formatted_date <$> data !! f else data !! f.
Proof.
  unfold formatDateFields.
  apply (ClaimServiceProofs.foldl_lookup format_date_field (fmap formatted_date)).
  - apply format_date_field_lookup.
  - apply ClaimServiceProofs.dateFields_NoDup.
Qed.

Lemma formatDateFields_id `{Engine} (data : object) :
  formatDateFields data !! "id" = data !! "id".
Proof.
  rewrite formatDateFields_lookup. rewrite decide_False; [done|].
  apply (bool_decide_unpack _). vm_compute. reflexivity.
Qed.

(** The mapped claim has the id of the row it was mapped from. *)
Lemma mapApiClaimToVisitClaim_id (now : Z) (row : object) :
  get (mapApiClaimToVisitClaim now row) "id" = get row "id".
Proof. reflexivity. Qed.

(** A field of the row that is set wins in the mapped claim. *)
Lemma mapApiClaimToVisitClaim_charge_dt (now : Z) (row : object) :
  get (mapApiClaimToVisitClaim now row) "charge_dt"
  = or_else (get row "charge_dt") JNull.
Proof. reflexivity. Qed.

Lemma replace_by_id_lookup (id : jsval) (x : VisitClaim) (l : list VisitClaim)
    (i : nat) :
  replace_by_id id x l !! i =
  (fun c => if strict_eq (get c "id") id then x else c) <$> l !! i.
Proof. apply list_lookup_fmap. Qed.

(** Putting [y] in place of the claim with [id] after [x] was put there
    leaves no trace of [x], as long as [x] has that id. *)
Lemma replace_by_id_twice (id : jsval) (x y : VisitClaim) (l : list VisitClaim) :
  strict_eq (get x "id") id = true ->
  replace_by_id id y (replace_by_id id x l) = replace_by_id id y l.
Proof.
  intros Hx. unfold replace_by_id. rewrite <- list_fmap_compose.
  apply list_fmap_ext. intros i c _. cbn.
  destruct (strict_eq (get c "id") id) eqn:Hc; [by rewrite Hx | by rewrite Hc].
Qed.

Lemma strict_eq_integer (n : Z) :
  strict_eq (JNum (Finite n 0)) (JNum (Finite n 0)) = true.
Proof. cbn. apply Z.eqb_refl. Qed.

(** The optimistic claim keeps the id of the current claim when the update
    does not name another one. *)
Lemma merge_id `{Engine} (cur : VisitClaim) (upd : object) (id : jsval) :
  get cur "id" = id ->
  upd !! "id" = None \/ upd !! "id" = Some id ->
  get (merge cur (formatDateFields upd)) "id" = id.
Proof.
  intros Hcur Hupd. unfold merge, get.
  rewrite lookup_union, formatDateFields_id.
  destruct Hupd as [-> | ->].
  - rewrite (left_id None _). exact Hcur.
  - by destruct (cur !! "id").
Qed.

(** C10.  With no current claim selected, [updateClaim] rejects with "No
    current claim selected to update"; no request is made, and the current
    claim, the claims list and the search results are what they were. *)
Theorem no_current_claim_selected `{Engine} (net : ClaimService.network)
    (now : Z) (user : option User) (upd : object) (s : state) :
  currentClaim s = None ->
  let out := updateClaim net now user upd s in
  result out = inr "No current claim selected to update" /\
  error (final out) = Some "No current claim selected to update" /\
  in_flight out = None /\
  events out = [] /\
  currentClaim (final out) = currentClaim s /\
  claims (final out) = claims s /\
  searchResults (final out) = searchResults s.
Proof.
  intros Hcur out. subst out. unfold updateClaim.
  cbn [currentClaim setError setIsLoading]. rewrite Hcur.
  by repeat split.
Qed.

Lemma no_current_claim_selected_witness :
  currentClaim nothing_selected = None /\
  result (@updateClaim (host 0) net_saving 0 None raise_charge nothing_selected)
  = inr "No current claim selected to update".
Proof.
  split; [reflexivity|].
  apply (@no_current_claim_selected (host 0) net_saving 0 None raise_charge
           nothing_selected).
  reflexivity.
Defined.

(** The state while the request is in flight: the optimistic claim is the
    current claim and stands in both lists for the claim with its id. *)
Lemma optimistic_state `{Engine} (cur : VisitClaim) (upd : object) (s : state) :
  let st := optimistic cur upd (setError None (setIsLoading true s)) in
  currentClaim st = Some (merge cur (formatDateFields upd)) /\
  claims st
  = replace_by_id (get cur "id") (merge cur (formatDateFields upd)) (claims s) /\
  searchResults st
  = replace_by_id (get cur "id") (merge cur (formatDateFields upd))
      (searchResults s).
Proof. by repeat split. Qed.

(** What a successful update leaves, whatever the ids: the claim mapped
    from the server's row is the current claim, and in both lists it stands
    for the claims that have its id once the optimistic claim stood for the
    claims that have the id of the current claim. *)
Lemma committed_state `{Engine} (net : ClaimService.network)
    (now : Z) (user : option User) (upd : object) (s : state)
    (cur : VisitClaim) (id : string) (row : object) :
  currentClaim s = Some cur ->
  id_toString (get cur "id") = inl id ->
  succeeded
    (ClaimService.updateClaim net 0 id
       (with_user_info user (formatDateFields upd)) 3).1 = Some row ->
  let out := updateClaim net now user upd s in
  let opt := merge cur (formatDateFields upd) in
  let server := mapApiClaimToVisitClaim now row in
  result out = inl server /\
  currentClaim (final out) = Some server /\
  claims (final out)
  = replace_by_id (get row "id") server
      (replace_by_id (get cur "id") opt (claims s)) /\
  searchResults (final out)
  = replace_by_id (get row "id") server
      (replace_by_id (get cur "id") opt (searchResults s)).
Proof.
  intros Hcur Hid Hrow out opt server. subst out.
  unfold updateClaim. cbn [currentClaim setError setIsLoading].
  rewrite Hcur, Hid.
  destruct (ClaimService.updateClaim net 0 id _ 3) as [response evs].
  cbn [fst] in Hrow. rewrite Hrow.
  rewrite mapApiClaimToVisitClaim_id. by repeat split.
Qed.



(** The first part of C7: when the update fails and the claim can be
    fetched again, the claim mapped from the fetched row is the current
    claim and stands for the claim of id [n] in both lists; the failure
    message is stored and thrown. *)
Lemma rolled_back_on_failure `{Engine} (net : ClaimService.network)
    (now : Z) (user : option User) (upd : object) (s : state)
    (cur : VisitClaim) (n : Z) (row : object) :
  currentClaim s = Some cur ->
  get cur "id" = JNum (Finite n 0) ->
  upd !! "id" = None \/ upd !! "id" = Some (JNum (Finite n 0)) ->
  let id := JNum (Finite n 0) in
  let out := updateClaim net now user upd s in
  let request :=
    ClaimService.updateClaim net 0 (to_string id)
      (with_user_info user (formatDateFields upd)) 3 in
  succeeded request.1 = None ->
  succeeded (ClaimService.fetchClaimById net (to_string id)) = Some row ->
  let fetched := mapApiClaimToVisitClaim now row in
  result out = inr (failure_message request.1) /\
  error (final out) = Some (failure_message request.1) /\
  events out = (request.2 ++ [ClaimService.Get (to_string id)])%list /\
  currentClaim (final out) = Some fetched /\
  claims (final out) = replace_by_id id fetched (claims s) /\
  searchResults (final out) = replace_by_id id fetched (searchResults s).
Proof.
  intros Hcur Hid Hupd id out request Hfail Hget fetched.
  assert (Hout : out = updateClaim net now user upd s) by reflexivity.
  unfold updateClaim in Hout.
  cbn [currentClaim setError setIsLoading] in Hout.
  rewrite Hcur, Hid in Hout. cbn [id_toString] in Hout.
  fold id in Hout. fold request in Hout, Hget.
  destruct request as [response evs] eqn:Hreq. cbn [fst snd] in *.
  rewrite Hfail, Hget in Hout. fold fetched in Hout.
  pose proof (optimistic_state cur upd s) as (Ho1 & Ho2 & Ho3).
  rewrite Hid in Ho2, Ho3. fold id in Ho2, Ho3.
  assert (Hopt : strict_eq (get (merge cur (formatDateFields upd)) "id") id
                 = true).
  { rewrite (merge_id cur upd id Hid Hupd). apply strict_eq_integer. }
  rewrite Hout.
  cbn [result events final fail put_claim currentClaim claims searchResults
       error setIsLoading setError setSearchResults setClaims setCurrentClaim].
  repeat split.
  - rewrite Ho2. by apply replace_by_id_twice.
  - rewrite Ho3. by apply replace_by_id_twice.
Qed.

(** C7 fails in its last part.  When the update fails and the claim cannot
    be fetched again either, nothing puts the earlier values back: the
    optimistic claim stays the current claim and stays in both lists.  The
    failure message is stored and thrown. *)
Theorem failed_refetch_keeps_optimistic `{Engine} (net : ClaimService.network)
    (now : Z) (user : option User) (upd : object) (s : state)
    (cur : VisitClaim) (n : Z) :
  currentClaim s = Some cur ->
  get cur "id" = JNum (Finite n 0) ->
  let id := JNum (Finite n 0) in
  let out := updateClaim net now user upd s in
  let opt := merge cur (formatDateFields upd) in
  let request :=
    ClaimService.updateClaim net 0 (to_string id)
      (with_user_info user (formatDateFields upd)) 3 in
  succeeded request.1 = None ->
  succeeded (ClaimService.fetchClaimById net (to_string id)) = None ->
  result out = inr (failure_message request.1) /\
  error (final out) = Some (failure_message request.1) /\
  events out = (request.2 ++ [ClaimService.Get (to_string id)])%list /\
  currentClaim (final out) = Some opt /\
  claims (final out) = replace_by_id id opt (claims s) /\
  searchResults (final out) = replace_by_id id opt (searchResults s).
Proof.
  intros Hcur Hid id out opt request Hfail Hget.
  assert (Hout : out = updateClaim net now user upd s) by reflexivity.
  unfold updateClaim in Hout.
  cbn [currentClaim setError setIsLoading] in Hout.
  rewrite Hcur, Hid in Hout. cbn [id_toString] in Hout.
  fold id in Hout. fold request in Hout, Hget.
  destruct request as [response evs] eqn:Hreq. cbn [fst snd] in *.
  rewrite Hfail, Hget in Hout.
  pose proof (optimistic_state cur upd s) as (Ho1 & Ho2 & Ho3).
  rewrite Hid in Ho2, Ho3. fold id opt in Ho1, Ho2, Ho3.
  rewrite Hout.
  cbn [result events final fail currentClaim claims searchResults
       error setIsLoading setError].
  by repeat split.
Qed.

Lemma failed_refetch_keeps_optimistic_witness :
  currentClaim viewing_42 = Some claim_42 /\
  get claim_42 "id" = JNum (Finite 42 0) /\
  get claim_42 "charge_amt" = JNum (Finite 150 0) /\
  let out := @updateClaim (host 0) net_down 0 None raise_charge viewing_42 in
  currentClaim (final out) ≫= (fun c => c !! "charge_amt")
  = Some (JNum (Finite 200 0)) /\
  (fun c => get c "charge_amt") <$> claims (final out)
  = [JNull; JNum (Finite 200 0)] /\
  (fun c => get c "charge_amt") <$> searchResults (final out)
  = [JNum (Finite 200 0)].
Proof.
  split; [reflexivity|]. split; [reflexivity|]. split; [reflexivity|].
  destruct (@failed_refetch_keeps_optimistic (host 0) net_down 0 None
              raise_charge viewing_42 claim_42 42 eq_refl eq_refl)
    as (_ & _ & _ & Hc & Hl & Hr);
    [vm_compute; reflexivity | vm_compute; reflexivity |].
  intros out. subst out. rewrite Hc, Hl, Hr.
  repeat split; vm_compute; reflexivity.
Defined.

End ClaimContextProofs.

(** ** The history view *)

Module HistorySectionProofs.
Import JS ClaimService HistorySection HistoryCard Examples Samples.

(** What [loadHistory] does once it gets to the request. *)
Lemma loadHistory_requests (get_history : string -> history_attempt)
    (claim : jsval) (seen : Z) (forceRefresh : bool) (now : Z)
    (mounted : bool) (c : component) :
  forceRefresh = true \/
    (cache_is_fresh claim now c = false /\ 10000 <= now - seen) ->
  loadHistory get_history claim seen forceRefresh now mounted c =
  let c := setLastFetchTime now (setError None (setIsLoading true c)) in
  if negb mounted then c
  else
    match fetchClaimHistory get_history (to_string claim) with
    | Some response =>
        if h_success response then
          setIsLoading false
            (remember (to_string claim)
               {| cached_data := h_data response; cached_at := now |}
               (setHistory (h_data response) c))
        else
          setIsLoading false
            (setHistory [] (report_failure (h_message response) c))
    | None =>
        setIsLoading false
          (setHistory []
             (setError
                (Some "An error occurred while loading history. Please try again later.")
                c))
    end.
Proof.
  intros Hreq. unfold loadHistory.
  assert (negb forceRefresh && cache_is_fresh claim now c = false) as ->.
  { destruct Hreq as [-> | [-> _]]; [done | by rewrite andb_false_r]. }
  assert (negb forceRefresh && (now - seen <? 10000) = false) as ->.
  { destruct Hreq as [-> | [_ Hseen]]; [done|].
    apply andb_false_intro2. lia. }
  reflexivity.
Qed.

(** Once [loadHistory] gets to the request, an error is set only by the
    [catch] block or by [report_failure]. *)
Lemma error_only_when_fetch_failed (get_history : string -> history_attempt)
    (claim : jsval) (seen : Z) (forceRefresh : bool) (now : Z)
    (mounted : bool) (c : component) (msg : string) :
  forceRefresh = true \/
    (cache_is_fresh claim now c = false /\ 10000 <= now - seen) ->
  error (loadHistory get_history claim seen forceRefresh now mounted c)
  = Some msg ->
  fetch_failed (fetchClaimHistory get_history (to_string claim)).
Proof.
  intros Hreq. rewrite (loadHistory_requests _ _ _ _ _ _ _ Hreq).
  unfold fetch_failed.
  destruct mounted; cbn [negb]; [|done].
  destruct (fetchClaimHistory get_history (to_string claim))
    as [response|]; [|done].
  destruct (h_success response); [done|].
  unfold report_failure.
  destruct (message_includes (h_message response) "status code 500");
    [by auto|].
  destruct (message_includes (h_message response) "Network Error");
    [by auto | done].
Qed.

(** The reply [{success: true, data: []}] to a load that gets to the
    request: with [isMounted.current] true the card holds an empty history
    and is not loading; with [isMounted.current] false the card is left as
    the start of the request set it, loading.  No error is set in either
    case. *)
Lemma empty_reply (get_history : string -> history_attempt) (claim : jsval)
    (seen : Z) (forceRefresh : bool) (now : Z) (mounted : bool)
    (c : component) (message : option string) :
  forceRefresh = true \/
    (cache_is_fresh claim now c = false /\ 10000 <= now - seen) ->
  get_history (to_string claim)
  = HFulfilled
      (Some {| h_success := true; h_data := []; h_message := message |}) ->
  let c' := loadHistory get_history claim seen forceRefresh now mounted c in
  error c' = None /\ isExpanded c' = isExpanded c /\
  isLoading c' = negb mounted /\
  history c' = (if mounted then [] else history c).
Proof.
  intros Hreq Hreply c'. subst c'.
  rewrite (loadHistory_requests _ _ _ _ _ _ _ Hreq).
  unfold fetchClaimHistory. rewrite Hreply. by destruct mounted.
Qed.

(** C9 on the code.  The server answers [{success: true, data: []}] for a
    claim, and the client returns that reply.  A card mounted for the claim
    holds an empty history and no error and shows the empty state.  A card
    that is given the claim after another one has [isMounted.current] false
    when the request ends: it drops the reply, keeps the history it had,
    and goes on showing "Loading history..." instead of the empty state; no
    error is set.  Whatever the server answers, an error is set only when
    the fetch failed. *)
Theorem empty_history_stays_loading_after_claim_change
    (get_history : string -> history_attempt) (claim : jsval) (now : Z) :
  (forall message,
     let body :=
       {| h_success := true; h_data := []; h_message := message |} in
     get_history (to_string claim) = HFulfilled (Some body) ->
     fetchClaimHistory get_history (to_string claim) = Some body /\
     (forall cache,
        cache_is_fresh claim now (initial cache) = false -> 10000 <= now ->
        let i := mount get_history claim now cache in
        isMounted i = true /\ history (card i) = [] /\
        error (card i) = None /\ isLoading (card i) = false /\
        render (card i) = EmptyState) /\
     (forall i,
        cache_is_fresh claim now (card i) = false ->
        10000 <= now - lastFetchTime (card i) ->
        let i' := change_claim get_history claim now i in
        isMounted i' = false /\ history (card i') = history (card i) /\
        error (card i') = None /\ isLoading (card i') = true /\
        render (card i')
        = if isExpanded (card i) then Loading else Collapsed)) /\
  (forall seen forceRefresh mounted c msg,
     forceRefresh = true \/
       (cache_is_fresh claim now c = false /\ 10000 <= now - seen) ->
     error (loadHistory get_history claim seen forceRefresh now mounted c)
     = Some msg ->
     fetch_failed (fetchClaimHistory get_history (to_string claim))).
Proof.
  split.
  - intros message body Hreply. split; [|split].
    + unfold fetchClaimHistory. by rewrite Hreply.
    + intros cache Hfresh Hnow i.
      destruct (empty_reply get_history claim 0 false now true
                  (forget_loaded (initial cache)) message)
        as (Herr & Hexp & Hload & Hhist); [right; split; [done | lia] | done |].
      subst i. cbn [card isMounted mount].
      split; [done|]. split; [done|]. split; [done|]. split; [done|].
      unfold render. by rewrite Hexp, Hload, Herr, Hhist.
    + intros i Hfresh Hseen i'.
      destruct (empty_reply get_history claim (lastFetchTime (card i)) false
                  now false (forget_loaded (card i)) message)
        as (Herr & Hexp & Hload & Hhist); [by right | done |].
      subst i'. cbn [card isMounted change_claim].
      split; [done|]. split; [done|]. split; [done|]. split; [done|].
      unfold render. by rewrite Hexp, Hload.
  - intros seen forceRefresh mounted c msg.
    apply error_only_when_fetch_failed.
Qed.

Lemma empty_history_stays_loading_after_claim_change_witness :
  render (card opened_42) = EmptyState /\
  isMounted moved_to_7 = false /\
  error (card moved_to_7) = None /\
  render (card moved_to_7) = Loading.
Proof.
  destruct (proj1 (empty_history_stays_loading_after_claim_change no_history
                     (JNum (Finite 42 0)) 20000) None eq_refl)
    as (_ & Hmount & _).
  destruct (Hmount ∅) as (_ & _ & _ & _ & Hopened);
    [vm_compute; reflexivity | lia |].
  destruct (proj1 (empty_history_stays_loading_after_claim_change no_history
                     (JNum (Finite 7 0)) 40000) None eq_refl)
    as (_ & _ & Hchange).
  destruct (Hchange opened_42) as (Hflag & _ & Herr & _ & Hmoved);
    [vm_compute; reflexivity | vm_compute; discriminate |].
  split; [exact Hopened|]. split; [exact Hflag|].
  split; [exact Herr | exact Hmoved].
Defined.

End HistorySectionProofs.

(** ** The claim service: change log and atomicity *)

Module ServerProofs.
Import Server Examples.

Lemma persist_lookup (cells : gmap string cell) (old : row) (c : string) :
  persist cells old !! c =
  match cells !! c with Some v => v | None => old !! c end.
Proof.
  unfold persist. rewrite lookup_merge.
  by destruct (cells !! c), (old !! c).
Qed.

Lemma changed_lookup (old : row) (cells : gmap string cell) (c : string)
    (v : cell) :
  changed old cells !! c = Some v <-> cells !! c = Some v /\ old !! c <> v.
Proof. unfold changed. by rewrite map_lookup_filter_Some. Qed.

(** The fields that changed are the columns in which the persisted row
    differs from the stored one. *)
Lemma changed_columns_persist (old : row) (cells : gmap string cell) :
  changed_columns old (persist cells old) = dom (changed old cells).
Proof.
  apply set_eq. intros c. unfold changed_columns.
  rewrite elem_of_filter, elem_of_union, !elem_of_dom, persist_lookup.
  split.
  - intros [Hne _]. destruct (cells !! c) as [v|] eqn:Hc; [|done].
    exists v. by apply changed_lookup.
  - intros [v [Hc Hne]%changed_lookup]. rewrite Hc. split; [done|].
    destruct (old !! c) eqn:Hold; [left; eauto|].
    right. destruct v; [eauto | done].
Qed.

(** A transaction whose writes all go through applies them in order. *)
Lemma run_Some (fails : nat -> bool) (ws : list write) :
  forall (n : nat) (working committed : store),
  run fails n ws working = Some committed ->
  committed = foldl (fun st w => apply_write w st) working ws /\
  forall k, (k < length ws)%nat -> fails (n + k)%nat = false.
Proof.
  induction ws as [|w ws IH]; intros n working committed Hrun; cbn in *.
  - split; [congruence | intros k Hk; lia].
  - destruct (fails n) eqn:Hn; [done|].
    destruct (IH _ _ _ Hrun) as [-> Hok]. split; [done|].
    intros [|k] Hk; [by rewrite Nat.add_0_r|].
    rewrite Nat.add_succ_r. apply (Hok k). lia.
Qed.

(** A transaction is abandoned exactly when one of its writes fails. *)
Lemma run_None (fails : nat -> bool) (ws : list write) :
  forall (n : nat) (working : store),
  run fails n ws working = None <->
  exists k, (k < length ws)%nat /\ fails (n + k)%nat = true.
Proof.
  induction ws as [|w ws IH]; intros n working; cbn.
  - split; [done | intros (k & Hk & _); lia].
  - destruct (fails n) eqn:Hn.
    + split; [|done]. intros _. exists 0%nat.
      rewrite Nat.add_0_r. split; [lia | done].
    + rewrite IH. split.
      * intros (k & Hk & Hf). exists (S k).
        rewrite Nat.add_succ_r. split; [lia | done].
      * intros ([|k] & Hk & Hf).
        -- rewrite Nat.add_0_r in Hf. congruence.
        -- exists k. rewrite Nat.add_succ_r in Hf. split; [lia | done].
Qed.

Lemma apply_inserts (es : list ChangeLogEntry) :
  forall st,
  foldl (fun st w => apply_write w st) st (InsertLog <$> es)
  = {| claims := claims st; change_log := (change_log st ++ es)%list |}.
Proof.
  induction es as [|e es IH]; intros st; cbn.
  - rewrite app_nil_r. by destruct st.
  - rewrite IH. cbn. by rewrite <- app_assoc.
Qed.

Lemma alter_known (f : row -> row) (id : Z) (old : row) (m : gmap Z row) :
  m !! id = Some old -> alter f id m = <[id := f old]> m.
Proof.
  intros Hold. apply map_eq. intros j. rewrite lookup_alter, lookup_insert.
  destruct (decide (id = j)) as [->|]; [by rewrite Hold | done].
Qed.

(** What a committed update leaves in the store. *)
Lemma update_committed (r : rules) (fails : nat -> bool) (now : Z)
    (req : request) (st st' : store) (new_row : row) :
  update r fails now req st = (st', inr new_row) ->
  exists id old,
    req_id req = Some id /\ claims st !! id = Some old /\
    new_row = persist (incoming r (req_fields req)) old /\
    claims st' = <[id := new_row]> (claims st) /\
    change_log st'
    = (change_log st
       ++ log_entries req id now old (incoming r (req_fields req)))%list.
Proof.
  unfold update. intros Hup.
  destruct (req_id req) as [id|]; [|done].
  destruct (claims st !! id) as [old|] eqn:Hold; [|done].
  destruct (run fails 0 _ st) as [committed|] eqn:Hrun; [|done].
  injection Hup as -> <-.
  apply run_Some in Hrun as [-> _]. cbn [foldl apply_write].
  rewrite apply_inserts. cbn.
  exists id, old. by rewrite (alter_known _ id old).
Qed.

(** C2.  An update that fails, with a storage failure or otherwise, leaves
    the store as it was: neither the row update nor any change-log insert is
    applied.  An update that succeeds has applied the row update and all its
    change-log inserts.  It fails with a PersistenceError exactly when the
    claim exists and the storage fails on the row update or on one of the
    inserts. *)
Theorem update_all_or_nothing (r : rules) (fails : nat -> bool) (now : Z)
    (req : request) (st : store) :
  let after := update r fails now req st in
  (forall e, after.2 = inl e -> after.1 = st) /\
  (forall new_row, after.2 = inr new_row ->
     exists id old,
       req_id req = Some id /\ claims st !! id = Some old /\
       claims after.1 = <[id := new_row]> (claims st) /\
       change_log after.1
       = (change_log st
          ++ log_entries req id now old (incoming r (req_fields req)))%list) /\
  (after.2 = inl PersistenceError <->
   exists id old k,
     req_id req = Some id /\ claims st !! id = Some old /\
     (k <= length (log_entries req id now old (incoming r (req_fields req))))%nat /\
     fails k = true).
Proof.
  intros after. split; [|split].
  - intros e He. subst after. unfold update in *.
    destruct (req_id req) as [id|]; [|done].
    destruct (claims st !! id) as [old|]; [|done].
    by destruct (run fails 0 _ st).
  - intros new_row Hok.
    destruct after as [st' res] eqn:Hafter. cbn in Hok. subst res.
    destruct (update_committed _ _ _ _ _ _ _ Hafter)
      as (id & old & ? & ? & ? & ? & ?).
    exists id, old. by repeat split.
  - subst after. unfold update.
    destruct (req_id req) as [id|]; cbn [fst snd];
      [|split; [done | intros (? & ? & ? & [=] & _)]].
    destruct (claims st !! id) as [old|] eqn:Hold; cbn [fst snd];
      [|split; [done | intros (? & ? & ? & [= <-] & ? & _); congruence]].
    destruct (run fails 0 _ st) as [committed|] eqn:Hrun; cbn [fst snd].
    + split; [done|]. intros (id' & old' & k & [= <-] & Hold' & Hk & Hf).
      assert (old' = old) as -> by congruence.
      apply run_Some in Hrun as [_ Hok].
      specialize (Hok k). cbn [length Nat.add] in Hok.
      rewrite length_fmap in Hok. rewrite Hok in Hf; [done | lia].
    + split; [|done]. intros _.
      apply run_None in Hrun as (k & Hk & Hf).
      cbn [length] in Hk. cbn [Nat.add] in Hf. rewrite length_fmap in Hk.
      exists id, old, k. repeat split; [done | lia | done].
Qed.

Lemma update_all_or_nothing_witness :
  (update example_rules storage_fails_on_log 7 clear_charge store_42).2
  = inl PersistenceError /\
  (update example_rules storage_fails_on_log 7 clear_charge store_42).1
  = store_42.
Proof.
  assert (Hfail :
    (update example_rules storage_fails_on_log 7 clear_charge store_42).2
    = inl PersistenceError) by (vm_compute; reflexivity).
  split; [exact Hfail|].
  exact (proj1 (update_all_or_nothing example_rules storage_fails_on_log 7
                  clear_charge store_42) PersistenceError Hfail).
Defined.

Lemma entry_fields (req : request) (id : Z) (now : Z) (old : row)
    (cells : gmap string cell) :
  entry_field <$> log_entries req id now old cells
  = (map_to_list (changed old cells)).*1.
Proof.
  unfold log_entries. rewrite <- list_fmap_compose. by apply list_fmap_ext.
Qed.

(** C1.  An update of claim [id] that succeeds appends to the change log
    one entry for each column in which the persisted row differs from the
    stored one, and nothing else: as many entries as there are such columns,
    no two for the same field, each with the stored value as old value, the
    persisted value as new value, the claim and the acting user.  A field of
    the request whose value is the stored one has no entry, and a request
    that changes no value adds no entry. *)
Theorem one_entry_per_changed_field (r : rules) (fails : nat -> bool)
    (now : Z) (req : request) (st st' : store) (id : Z) (old new_row : row) :
  req_id req = Some id ->
  claims st !! id = Some old ->
  update r fails now req st = (st', inr new_row) ->
  exists entries,
    change_log st' = (change_log st ++ entries)%list /\
    claims st' !! id = Some new_row /\
    length entries = size (changed_columns old new_row) /\
    NoDup (entry_field <$> entries) /\
    (forall e, e ∈ entries ->
       old !! entry_field e <> new_row !! entry_field e /\
       entry_old e = old !! entry_field e /\
       entry_new e = new_row !! entry_field e /\
       entry_claim e = id /\
       entry_user_id e = req_user_id req /\
       entry_username e = req_username req) /\
    (forall c, old !! c <> new_row !! c ->
       exists e, e ∈ entries /\ entry_field e = c) /\
    ((forall c v, incoming r (req_fields req) !! c = Some v -> old !! c = v) ->
     entries = []).
Proof.
  intros Hid Hold Hup.
  destruct (update_committed _ _ _ _ _ _ _ Hup)
    as (id' & old' & Hid' & Hold' & -> & Hclaims & Hlog).
  assert (id' = id) as -> by congruence.
  assert (old' = old) as -> by congruence.
  set (cells := incoming r (req_fields req)) in *.
  exists (log_entries req id now old cells).
  split; [done|]. split; [by rewrite Hclaims, lookup_insert_eq|].
  split; [|split; [|split; [|split]]].
  - rewrite changed_columns_persist, size_dom.
    unfold log_entries. by rewrite length_fmap, length_map_to_list.
  - rewrite entry_fields. apply NoDup_fst_map_to_list.
  - intros e He. unfold log_entries in He.
    apply list_elem_of_fmap in He as ([c v] & -> & Hcv).
    apply elem_of_map_to_list, changed_lookup in Hcv as [Hc Hne].
    cbn. rewrite persist_lookup, Hc. by repeat split.
  - intros c Hne. rewrite persist_lookup in Hne.
    destruct (cells !! c) as [v|] eqn:Hc; [|done].
    eexists. split.
    + unfold log_entries. apply list_elem_of_fmap. exists (c, v).
      split; [reflexivity|]. by apply elem_of_map_to_list, changed_lookup.
    + reflexivity.
  - intros Hsame. unfold log_entries.
    assert (changed old cells = ∅) as ->; [|by rewrite map_to_list_empty].
    apply map_empty. intros c.
    destruct (changed old cells !! c) as [v|] eqn:Hc; [|done].
    apply changed_lookup in Hc as [Hc Hne]. by destruct (Hne (Hsame c v Hc)).
Qed.

Lemma one_entry_per_changed_field_witness :
  exists entries,
    change_log (update example_rules storage_ok 7 clear_charge store_42).1
    = entries /\
    length entries = 1%nat /\
    (forall e, e ∈ entries ->
       entry_field e = "charge_amt" /\ entry_old e = Some "150.00" /\
       entry_new e = None /\ entry_username e = "Ann").
Proof.
  destruct (one_entry_per_changed_field example_rules storage_ok 7
              clear_charge store_42
              (update example_rules storage_ok 7 clear_charge store_42).1
              42 {[ "charge_amt" := "150.00" ]} ∅)
    as (entries & Hlog & _ & Hlen & _ & _ & _ & _);
    [reflexivity | reflexivity | vm_compute; reflexivity |].
  exists entries. split; [exact Hlog|].
  assert (entries = change_log
            (update example_rules storage_ok 7 clear_charge store_42).1)
    as -> by (by rewrite Hlog).
  split; [vm_compute; reflexivity|].
  intros e He. vm_compute in He.
  apply list_elem_of_singleton in He as ->. by repeat split.
Defined.

End ServerProofs.

(** ** The read operations of the API client *)

Module ClaimReadsProofs.
Import JS ClaimService ClaimReads.

Lemma add_param_lookup (f : object) (from to : string) (params : object)
    (k : string) :
  add_param f from to params !! k =
  if decide (k = to)
  then (if truthy (get f from) then Some (get f from) else params !! k)
  else params !! k.
Proof.
  unfold add_param.
  destruct (truthy (get f from)), (decide (k = to)) as [->|Hne];
    rewrite ?lookup_insert_eq, ?lookup_insert_ne; done.
Qed.

(** The search form sends a filter under the name of its column, and only
    when the filter is set: an empty or missing filter sends nothing, the
    date of service goes out as [service_end], and no other parameter is
    ever sent. *)
Theorem claims_params_sent (f : object) (k : string) (v : jsval) :
  claims_params (Some f) !! k = Some v <->
  truthy v = true /\
  ((k = "patient_id" /\ get f "patientId" = v) \/
   (k = "cpt_id" /\ get f "cptId" = v) \/
   (k = "service_end" /\ get f "dos" = v)).
Proof.
  unfold claims_params. rewrite !add_param_lookup, lookup_empty.
  destruct (decide (k = "service_end")) as [->|H1].
  { destruct (truthy (get f "dos")) eqn:Ht; cbn.
    - split; [intros [= <-]; auto | intros (_ & [[[=] _]|[[[=] _]|[_ <-]]]); done].
    - split; [done|]. intros (Hv & [[[=] _]|[[[=] _]|[_ <-]]]). congruence. }
  destruct (decide (k = "cpt_id")) as [->|H2].
  { destruct (truthy (get f "cptId")) eqn:Ht; cbn.
    - split; [intros [= <-]; auto | intros (_ & [[[=] _]|[[_ <-]|[[=] _]]]); done].
    - split; [done|]. intros (Hv & [[[=] _]|[[_ <-]|[[=] _]]]). congruence. }
  destruct (decide (k = "patient_id")) as [->|H3].
  { destruct (truthy (get f "patientId")) eqn:Ht; cbn.
    - split; [intros [= <-]; auto | intros (_ & [[_ <-]|[[[=] _]|[[=] _]]]); done].
    - split; [done|]. intros (Hv & [[_ <-]|[[[=] _]|[[=] _]]]). congruence. }
  split; [done|]. intros (_ & [[? _]|[[? _]|[? _]]]); done.
Qed.

(** The history filters are sent under their own names, and only when they
    are set: a filter that is missing, empty or zero (page 0, user 0) sends
    nothing. *)
Theorem history_params_sent (f : object) (k : string) (v : jsval) :
  history_params (Some f) !! k = Some v <->
  k ∈ history_filters /\ f !! k = Some v /\ truthy v = true.
Proof.
  unfold history_params, history_filters.
  rewrite !add_param_lookup, lookup_empty.
  assert (Hget : forall key, truthy (get f key) = true ->
            Some (get f key) = Some v <-> f !! key = Some v /\ truthy v = true).
  { intros key Ht. unfold get in *. destruct (f !! key) as [w|]; cbn in *.
    - split; [intros [= <-]; auto | intros [[= <-] _]; done].
    - done. }
  assert (Hno : forall key, truthy (get f key) = false ->
            ~ (f !! key = Some v /\ truthy v = true)).
  { intros key Ht [Hk Hv]. unfold get in Ht. rewrite Hk in Ht. cbn in Ht.
    congruence. }
  repeat match goal with
  | |- context [decide (k = ?key)] =>
      destruct (decide (k = key)) as [->|?];
      [ destruct (truthy (get f key)) eqn:Ht;
        [ rewrite (Hget _ Ht); split;
          [ intros ?; split; [rewrite !elem_of_cons; tauto | done]
          | intros (_ & ?); done ]
        | split; [done | intros (_ & Hkv); destruct (Hno _ Ht Hkv)] ]
      | ]
  end.
  split; [done|]. intros (Hin & _).
  rewrite !elem_of_cons, elem_of_nil in Hin. tauto.
Qed.

End ClaimReadsProofs.

(** ** The other operations of the state manager *)

Module ClaimProviderProofs.
Import JS Builtins ClaimContext ClaimProvider Examples Samples.

Lemma replace_by_id_length (id : jsval) (x : VisitClaim) (l : list VisitClaim) :
  length (replace_by_id id x l) = length l.
Proof. apply length_fmap. Qed.

Lemma put_claim_lengths (id : jsval) (c : VisitClaim) (s : state) :
  length (claims (put_claim id c s)) = length (claims s) /\
  length (searchResults (put_claim id c s)) = length (searchResults s).
Proof. split; apply replace_by_id_length. Qed.

(** Whatever the update, the server and the state, [updateClaim] neither
    adds nor removes an entry of the claims list or of the search results,
    it leaves the loading flag down, and the error it stores is the message
    it rejects with (none when it resolves). *)
Theorem update_keeps_lists `{Engine} (net : ClaimService.network) (now : Z)
    (user : option User) (upd : object) (s : state) :
  let out := updateClaim net now user upd s in
  length (claims (final out)) = length (claims s) /\
  length (searchResults (final out)) = length (searchResults s) /\
  isLoading (final out) = false /\
  (forall msg, result out = inr msg <-> error (final out) = Some msg).
Proof.
  intros out. subst out. unfold updateClaim, optimistic.
  cbn [currentClaim setError setIsLoading].
  destruct (currentClaim s) as [cur|].
  2:{ cbn. repeat split; congruence. }
  destruct (id_toString (get cur "id")) as [id|type_error].
  2:{ cbn [final fail put_claim result claims searchResults isLoading error
           setIsLoading setError setCurrentClaim setClaims setSearchResults].
      rewrite !replace_by_id_length. repeat split; congruence. }
  destruct (ClaimService.updateClaim net 0 id _ 3) as [response evs].
  destruct (succeeded response) as [row|].
  - cbn [final fail put_claim result claims searchResults isLoading error
         setIsLoading setError setCurrentClaim setClaims setSearchResults].
    rewrite !replace_by_id_length. repeat split; congruence.
  - destruct (succeeded (ClaimService.fetchClaimById net id)) as [row|];
      cbn [final fail put_claim result claims searchResults isLoading error
           setIsLoading setError setCurrentClaim setClaims setSearchResults];
      rewrite !replace_by_id_length; repeat split; congruence.
Qed.

Lemma not_a_listed_field (f : string) :
  f ∉ ClaimService.legacyFields -> f ∉ ClaimService.dateFields ->
  f ∉ ClaimService.numericFields ->
  forall `{Engine} (data : object),
    ClaimService.sanitize data !! f = data !! f.
Proof.
  intros Hl Hd Hn E data. rewrite ClaimServiceProofs.sanitize_lookup.
  by rewrite !decide_False.
Qed.



(** *** getClaim *)

Lemma find_local (n : number) (l : list VisitClaim) :
  (exists c0, c0 ∈ l /\ strict_eq (get c0 "id") (JNum n) = true) ->
  exists c, find (fun c => strict_eq (get c "id") (JNum n)) l = Some c /\
            c ∈ l /\ strict_eq (get c "id") (JNum n) = true.
Proof.
  intros (c0 & Hin & Hid).
  destruct (find _ l) as [c|] eqn:Hfind.
  - apply find_some in Hfind as [Hc Hcid].
    exists c. by rewrite <- list_elem_of_In in Hc.
  - apply list_elem_of_In in Hin.
    pose proof (find_none _ _ Hfind c0 Hin) as Hno. cbn in Hno. congruence.
Qed.


(** A claim that is in the claims list is selected without a request: when
    no other operation is loading and some claim of the list has the id
    that [parseInt] reads from the route, [getClaim] resolves with a claim
    of the list that has that id, makes it the current claim, clears the
    error and asks the server nothing. *)
Theorem getClaim_from_the_list (net : ClaimService.network) (now : Z)
    (id : string) (s : state) (c0 : VisitClaim) :
  isLoading s = false ->
  c0 ∈ claims s ->
  strict_eq (get c0 "id") (JNum (parseInt10 (JStr id))) = true ->
  let r := getClaim net now id s in
  requests r = [] /\
  (exists c, claim r = Some c /\ currentClaim (after r) = Some c /\
     c ∈ claims s /\
     strict_eq (get c "id") (JNum (parseInt10 (JStr id))) = true) /\
  error (after r) = None /\ isLoading (after r) = false.
Proof.
  intros Hload Hin Hid r. subst r. unfold getClaim. rewrite Hload.
  cbn [claims setError setIsLoading].
  destruct (find_local (parseInt10 (JStr id)) (claims s)) as (c & -> & Hc & Hcid);
    [by exists c0|].
  cbn. repeat split; try done. by exists c.
Qed.



(** *** searchClaims and the initial load *)

Lemma message_or_not_empty (m fallback : string) :
  fallback <> "" -> ClaimService.message_or m fallback <> "".
Proof.
  intros Hf. unfold ClaimService.message_or.
  by destruct (String.eqb_spec m "").
Qed.

Lemma message_or_twice (m fallback other : string) :
  fallback <> "" ->
  ClaimService.message_or (ClaimService.message_or m fallback) other
  = ClaimService.message_or m fallback.
Proof.
  intros Hf. unfold ClaimService.message_or at 1.
  destruct (String.eqb_spec (ClaimService.message_or m fallback) "") as [He|];
    [|done].
  by destruct (message_or_not_empty m fallback Hf).
Qed.

(** A search replaces the search results and nothing else.  When the server
    lists rows, the results are the mapped rows in the server's order, one
    per row and with the row's id, and the error is cleared; when it does
    not, the earlier results are dropped and an error is stored, which for
    a request that was rejected is the message of the rejection.  The claims
    list and the current claim stay as they were in every case. *)
Theorem searchClaims_results (get_claims : object -> ClaimReads.list_attempt)
    (now : Z) (filters : object) (s : state) :
  isLoading s = false ->
  let s' := searchClaims get_claims now filters s in
  claims s' = claims s /\ currentClaim s' = currentClaim s /\
  isLoading s' = false /\
  (forall rows,
     listed (ClaimReads.fetchClaims get_claims (Some filters)) = Some rows ->
     error s' = None /\
     length (searchResults s') = length rows /\
     forall i row, rows !! i = Some row ->
       exists c, searchResults s' !! i = Some c /\
                 get c "id" = get row "id") /\
  (listed (ClaimReads.fetchClaims get_claims (Some filters)) = None ->
   searchResults s' = [] /\ exists msg, error s' = Some msg /\ msg <> "") /\
  (forall e,
     get_claims (ClaimReads.claims_params (Some filters))
     = ClaimReads.LRejected e ->
     searchResults s' = [] /\
     error s'
     = Some (ClaimService.message_or (ClaimService.err_message e)
               "Network error")).
Proof.
  intros Hload s'. subst s'. unfold searchClaims. rewrite Hload.
  destruct (listed (ClaimReads.fetchClaims get_claims (Some filters)))
    as [rows|] eqn:Hlisted;
    cbn [searchResults claims currentClaim isLoading error setIsLoading
         setError setSearchResults].
  - split; [done|]. split; [done|]. split; [done|].
    split; [|split; [done|]].
    + intros rows' [= <-]. split; [done|]. split; [apply length_fmap|].
      intros i row Hrow. rewrite list_lookup_fmap, Hrow. cbn.
      eexists. split; [reflexivity|].
      apply ClaimContextProofs.mapApiClaimToVisitClaim_id.
    + intros e He. unfold ClaimReads.fetchClaims in Hlisted.
      rewrite He in Hlisted. done.
  - split; [done|]. split; [done|]. split; [done|].
    split; [done|]. split.
    + intros _. split; [done|].
      eexists. split; [reflexivity|]. by apply message_or_not_empty.
    + intros e He. split; [done|].
      unfold ClaimReads.fetchClaims. rewrite He.
      unfold message_of. cbn [ClaimReads.l_message default from_option id].
      by rewrite message_or_twice.
Qed.

(** The initial load runs once and fills both lists with the same claims:
    after it the claims list and the search results are equal, the loading
    flag is down, and running the effect again changes nothing.  When the
    server lists rows the claims are the mapped rows in the server's order,
    one per row and with the row's id, and the error is cleared; when it
    does not, both lists are empty and an error is stored. *)
Theorem loadInitialClaims_once
    (get_claims get_claims' : object -> ClaimReads.list_attempt)
    (now now' : Z) (s : state) :
  let '(s1, done) := loadInitialClaims get_claims now false s in
  done = true /\
  claims s1 = searchResults s1 /\
  isLoading s1 = false /\
  currentClaim s1 = currentClaim s /\
  (forall rows,
     listed (ClaimReads.fetchClaims get_claims None) = Some rows ->
     error s1 = None /\
     length (claims s1) = length rows /\
     forall i row, rows !! i = Some row ->
       exists c, claims s1 !! i = Some c /\ get c "id" = get row "id") /\
  (listed (ClaimReads.fetchClaims get_claims None) = None ->
   claims s1 = [] /\ exists msg, error s1 = Some msg /\ msg <> "") /\
  loadInitialClaims get_claims' now' done s1 = (s1, true).
Proof.
  unfold loadInitialClaims.
  destruct (listed (ClaimReads.fetchClaims get_claims None)) as [rows|];
    cbn [searchResults claims currentClaim isLoading error setIsLoading
         setError setSearchResults setClaims].
  - split; [done|]. split; [done|]. split; [done|]. split; [done|].
    split; [|by split].
    intros rows' [= <-]. split; [done|]. split; [apply length_fmap|].
    intros i row Hrow. rewrite list_lookup_fmap, Hrow. cbn.
    eexists. split; [reflexivity|].
    apply ClaimContextProofs.mapApiClaimToVisitClaim_id.
  - split; [done|]. split; [done|]. split; [done|]. split; [done|].
    split; [done|]. split; [|done].
    intros _. split; [done|].
    eexists. split; [reflexivity|]. by apply message_or_not_empty.
Qed.

Lemma loadInitialClaims_once_witness :
  listed (ClaimReads.fetchClaims claims_listed None) = Some [row_before] /\
  (fun c => get c "id")
    <$> claims (loadInitialClaims claims_listed 0 false nothing_selected).1
  = [JNum (Finite 42 0)] /\
  claims (loadInitialClaims claims_listed 0 false nothing_selected).1
  = searchResults (loadInitialClaims claims_listed 0 false nothing_selected).1.
Proof.
  split; [reflexivity|].
  pose proof (loadInitialClaims_once claims_listed claims_down 0 1
                nothing_selected) as Hload.
  destruct (loadInitialClaims claims_listed 0 false nothing_selected)
    as [s1 done].
  destruct Hload as (_ & Hsame & _ & _ & Hrows & _).
  destruct (Hrows [row_before] eq_refl) as (_ & Hlen & Hids).
  destruct (Hids 0%nat row_before eq_refl) as (c & Hc & Hid).
  split; [|exact Hsame]. cbn [fst].
  destruct (claims s1) as [|c0 [|c1 rest]]; try discriminate Hlen.
  injection Hc as ->. cbn [fmap list_fmap]. rewrite Hid. reflexivity.
Defined.

(** *** addNote *)

Lemma addNote_step (now : Z) (claimId note : string) (s : state)
    (cur : VisitClaim) (l : list string) :
  currentClaim s = Some cur ->
  strict_eq (get cur "id") (JNum (parseInt10 (JStr claimId))) = true ->
  get cur "notes" = JStrings l ->
  let c' :=
    <["updatedAt" := JStr (toISOString now)]>
      (<["notes" := JStrings (l ++ [note])]> cur) in
  addNote now claimId note s = Some (put_claim (get cur "id") c' s) /\
  get c' "id" = get cur "id" /\
  get c' "notes" = JStrings (l ++ [note]).
Proof.
  intros Hcur Hid Hnotes c'. unfold addNote. rewrite Hcur, Hid, Hnotes.
  cbn [append_note truthy].
  assert (Hcid : get c' "id" = get cur "id").
  { unfold c', get. by rewrite !lookup_insert_ne. }
  fold c'. rewrite Hcid. repeat split.
  unfold c', get. by rewrite lookup_insert_ne, lookup_insert_eq.
Qed.


(** Notes do not survive a save.  A note added to the current claim is in
    its notes, but once an update of that claim has succeeded the current
    claim is the one mapped from the server's row, and its notes are
    empty. *)
Theorem notes_lost_on_save `{Engine} (net : ClaimService.network)
    (now now' : Z) (user : option User) (upd : object) (claimId note : string)
    (s : state) (cur : VisitClaim) (l : list string) (n : Z) (row : object) :
  currentClaim s = Some cur ->
  get cur "id" = JNum (Finite n 0) ->
  strict_eq (get cur "id") (JNum (parseInt10 (JStr claimId))) = true ->
  get cur "notes" = JStrings l ->
  succeeded
    (ClaimService.updateClaim net 0 (to_string (JNum (Finite n 0)))
       (with_user_info user (formatDateFields upd)) 3).1 = Some row ->
  exists s1,
    addNote now claimId note s = Some s1 /\
    currentClaim s1 ≫= (fun c => c !! "notes")
    = Some (JStrings (l ++ [note])) /\
    currentClaim (final (updateClaim net now' user upd s1))
      ≫= (fun c => c !! "notes")
    = Some (JStrings []).
Proof.
  intros Hcur Hid Hsame Hnotes Hok.
  destruct (addNote_step now claimId note s cur l Hcur Hsame Hnotes)
    as (Hs1 & Hid1 & Hnotes1).
  set (c1 := <["updatedAt" := JStr (toISOString now)]>
               (<["notes" := JStrings (l ++ [note])]> cur)) in *.
  exists (put_claim (get cur "id") c1 s).
  split; [exact Hs1|]. split.
  - cbn. unfold c1. by rewrite lookup_insert_ne, lookup_insert_eq.
  - assert (Hcur1 : currentClaim (put_claim (get cur "id") c1 s) = Some c1)
      by reflexivity.
    assert (Htext : id_toString (get c1 "id")
                    = inl (to_string (JNum (Finite n 0))))
      by (by rewrite Hid1, Hid).
    destruct (ClaimContextProofs.committed_state net now' user upd _ c1 _ row
                Hcur1 Htext Hok) as (_ & -> & _).
    reflexivity.
Qed.

(** *** mapApiClaimToVisitClaim *)

Lemma mapped_nullable (now : Z) (row : object) :
  Forall (fun f => mapApiClaimToVisitClaim now row !! f
                   = Some (or_else (get row f) JNull)) nullable_fields.
Proof. unfold nullable_fields, amount_fields. repeat (constructor; [reflexivity|]). constructor. Qed.

Lemma mapped_amount (now : Z) (row : object) :
  Forall (fun f => mapApiClaimToVisitClaim now row !! f
                   = Some (or_null (get row f))) amount_fields.
Proof. unfold nullable_fields, amount_fields. repeat (constructor; [reflexivity|]). constructor. Qed.

Lemma mapped_special (now : Z) (row : object) :
  let m := mapApiClaimToVisitClaim now row in
  m !! "id" = Some (get row "id") /\
  m !! "patient_id" = Some (get row "patient_id") /\
  m !! "cpt_id" = Some (or_else (opt_toString (get row "cpt_id")) JNull) /\
  m !! "first_name" = Some (or_else (get row "first_name") (JStr "")) /\
  m !! "last_name" = Some (or_else (get row "last_name") (JStr "")) /\
  m !! "service_end"
  = Some (or_else (or_else (get row "service_end") (get row "dos")) JNull) /\
  m !! "dos"
  = Some (or_else (or_else (get row "service_end") (get row "dos")) (JStr "")) /\
  m !! "claim_status"
  = Some (or_else (get row "claim_status") (JStr "Pending")).
Proof. by repeat split. Qed.

Lemma or_else_twice (v w : jsval) : or_else (or_else v w) w = or_else v w.
Proof.
  unfold or_else. destruct (truthy v) eqn:Hv; [by rewrite Hv|].
  by destruct (truthy w).
Qed.

Lemma or_null_twice (v : jsval) : or_null (or_null v) = or_null v.
Proof. by destruct v. Qed.

Lemma text_toString_twice (x : string) :
  or_else (opt_toString (or_else (JStr x) JNull)) JNull
  = or_else (JStr x) JNull.
Proof.
  unfold or_else at 2 3. cbn [truthy].
  destruct (String.eqb_spec x "") as [->|Hne]; cbn [negb]; [reflexivity|].
  cbn [opt_toString to_string]. unfold or_else. cbn [truthy].
  by destruct (String.eqb_spec x "").
Qed.

Lemma opt_toString_twice (v : jsval) :
  or_else (opt_toString (or_else (opt_toString v) JNull)) JNull
  = or_else (opt_toString v) JNull.
Proof.
  destruct v as [| |b|n|s|l]; try reflexivity; exact (text_toString_twice _).
Qed.

Lemma service_end_twice (a b : jsval) :
  or_else (or_else (or_else (or_else a b) JNull)
                   (or_else (or_else a b) (JStr ""))) JNull
  = or_else (or_else a b) JNull.
Proof.
  unfold or_else. destruct (truthy a) eqn:Ha; [by rewrite !Ha|].
  destruct (truthy b) eqn:Hb; [by rewrite !Hb|]. reflexivity.
Qed.

(** Mapping a claim that is already in the UI's shape changes none of its
    database fields: on each of them [mapApiClaimToVisitClaim] is
    idempotent, whatever the row and the times of the two calls. *)
Theorem mapping_twice_keeps_database_fields (now now' : Z) (row : object)
    (f : string) :
  f ∈ database_fields ->
  mapApiClaimToVisitClaim now' (mapApiClaimToVisitClaim now row) !! f
  = mapApiClaimToVisitClaim now row !! f.
Proof.
  intros Hf. unfold database_fields in Hf.
  rewrite !elem_of_app in Hf. destruct Hf as [Hf|[Hf|Hf]].
  - destruct (mapped_special now row)
      as (Hid & Hpid & Hcpt & Hfn & Hln & Hse & Hdos & Hcs).
    destruct (mapped_special now' (mapApiClaimToVisitClaim now row))
      as (Hid' & Hpid' & Hcpt' & Hfn' & Hln' & Hse' & _ & Hcs').
    rewrite !elem_of_cons, elem_of_nil in Hf.
    destruct Hf as [->|[->|[->|[->|[->|[->|[->|[]]]]]]]].
    + rewrite Hid', Hid. unfold get at 1. by rewrite Hid.
    + rewrite Hpid', Hpid. unfold get at 1. by rewrite Hpid.
    + rewrite Hcpt', Hcpt. unfold get at 1. rewrite Hcpt.
      cbn [default from_option id]. by rewrite opt_toString_twice.
    + rewrite Hfn', Hfn. unfold get at 1. rewrite Hfn.
      cbn [default from_option id]. by rewrite or_else_twice.
    + rewrite Hln', Hln. unfold get at 1. rewrite Hln.
      cbn [default from_option id]. by rewrite or_else_twice.
    + rewrite Hse', Hse. unfold get at 1 2. rewrite Hse, Hdos.
      cbn [default from_option id]. by rewrite service_end_twice.
    + rewrite Hcs', Hcs. unfold get at 1. rewrite Hcs.
      cbn [default from_option id]. by rewrite or_else_twice.
  - pose proof (mapped_nullable now row) as H1.
    pose proof (mapped_nullable now' (mapApiClaimToVisitClaim now row)) as H2.
    rewrite Forall_forall in H1, H2. rewrite (H2 f Hf), (H1 f Hf).
    unfold get at 1. rewrite (H1 f Hf). cbn [default from_option id].
    by rewrite or_else_twice.
  - pose proof (mapped_amount now row) as H1.
    pose proof (mapped_amount now' (mapApiClaimToVisitClaim now row)) as H2.
    rewrite Forall_forall in H1, H2. rewrite (H2 f Hf), (H1 f Hf).
    unfold get at 1. rewrite (H1 f Hf). cbn [default from_option id].
    by rewrite or_null_twice.
Qed.

(** A mapped claim always has the same properties, the forty-four database
    fields and the eleven legacy fields, whatever the row holds or lacks;
    its amounts keep a zero of the row and are null only where the row has
    no value. *)
Theorem mapped_claim_shape (now : Z) (row : object) :
  dom (mapApiClaimToVisitClaim now row)
  = list_to_set (database_fields ++ legacy_fields) /\
  forall f, f ∈ amount_fields ->
    get (mapApiClaimToVisitClaim now row) f
    = (if decide (get row f = JUndefined) then JNull else get row f).
Proof.
  split.
  - unfold mapApiClaimToVisitClaim. rewrite dom_list_to_map_L. reflexivity.
  - intros f Hf. pose proof (mapped_amount now row) as H1.
    rewrite Forall_forall in H1. unfold get at 1. rewrite (H1 f Hf).
    cbn [default from_option id].
    by destruct (get row f).
Qed.

(** *** The theorems above on the sample data *)

Lemma getClaim_from_the_list_witness :
  isLoading idle_42 = false /\
  claim_42 ∈ claims idle_42 /\
  strict_eq (get claim_42 "id") (JNum (parseInt10 (JStr "42"))) = true /\
  requests (getClaim net_down 0 "42" idle_42) = [] /\
  error (after (getClaim net_down 0 "42" idle_42)) = None.
Proof.
  assert (Hin : claim_42 ∈ claims idle_42)
    by (apply list_elem_of_further, list_elem_of_here).
  assert (Hid : strict_eq (get claim_42 "id")
                  (JNum (parseInt10 (JStr "42"))) = true)
    by (vm_compute; reflexivity).
  split; [reflexivity|]. split; [exact Hin|]. split; [exact Hid|].
  destruct (getClaim_from_the_list net_down 0 "42" idle_42 claim_42
              eq_refl Hin Hid) as (Hreq & _ & Herr & _).
  split; [exact Hreq | exact Herr].
Defined.




Lemma searchClaims_results_witness :
  isLoading idle_42 = false /\
  searchResults idle_42 = [claim_42] /\
  searchResults (searchClaims claims_down 0 patient_12 idle_42) = [] /\
  error (searchClaims claims_down 0 patient_12 idle_42)
  = Some "timeout of 15000ms exceeded".
Proof.
  split; [reflexivity|]. split; [reflexivity|].
  destruct (searchClaims_results claims_down 0 patient_12 idle_42 eq_refl)
    as (_ & _ & _ & _ & _ & Hrejected).
  exact (Hrejected timed_out eq_refl).
Defined.


Lemma notes_lost_on_save_witness :
  currentClaim idle_42 = Some claim_42 /\
  exists s1,
    addNote 1 "42" "called payer" idle_42 = Some s1 /\
    currentClaim s1 ≫= (fun c => c !! "notes")
    = Some (JStrings ["called payer"]) /\
    currentClaim
      (final (@updateClaim (host 0) net_saving 2 None raise_charge s1))
      ≫= (fun c => c !! "notes")
    = Some (JStrings []).
Proof.
  split; [reflexivity|].
  destruct (@notes_lost_on_save (host 0) net_saving 1 2 None raise_charge
              "42" "called payer" idle_42 claim_42 [] 42 row_after)
    as (s1 & Hs1 & Hnote & Hlost);
    [reflexivity | reflexivity | vm_compute; reflexivity | reflexivity
    |vm_compute; reflexivity |].
  exists s1. split; [exact Hs1|]. split; [exact Hnote | exact Hlost].
Defined.

Lemma mapping_twice_keeps_database_fields_witness :
  "charge_amt" ∈ database_fields /\
  mapApiClaimToVisitClaim 1 (mapApiClaimToVisitClaim 0 row_before)
    !! "charge_amt"
  = Some (JNum (Finite 150 0)).
Proof.
  assert (Hin : "charge_amt" ∈ database_fields)
    by (apply (bool_decide_unpack _); vm_compute; reflexivity).
  split; [exact Hin|].
  rewrite (mapping_twice_keeps_database_fields 0 1 row_before "charge_amt" Hin).
  reflexivity.
Defined.

End ClaimProviderProofs.

(** ** The auth context and the acting user *)

Module AuthContextProofs.
Import JS ClaimContext AuthContext Samples.

(** The user id that goes out with an update tells the role, not the
    person.  After a login that carried user data, every update of the
    claim provider is sent with the user id "admin-1" when the role is
    "Admin" and "user-1" otherwise, whatever the name and the e-mail; a
    login without user data resolves with false and leaves the user and the
    authentication as they were. *)
Theorem user_id_tells_the_role `{Engine} (credentials : LoginCredentials)
    (st : AuthState) (upd : object) :
  let '(pending, after, ok) := login credentials st in
  isLoading pending = true /\ isLoading after = false /\
  (forall data, cred_userData credentials = Some data ->
     ok = true /\ isAuthenticated after = true /\
     ClaimService.sanitize
       (with_user_info (editor after) (formatDateFields upd)) !! "user_id"
     = Some (JStr (if String.eqb (ud_role data) "Admin"
                   then "admin-1" else "user-1"))) /\
  (cred_userData credentials = None ->
     ok = false /\ user after = user st /\
     isAuthenticated after = isAuthenticated st).
Proof.
  unfold login. destruct (cred_userData credentials) as [data|].
  - split; [done|]. split; [done|]. split; [|done].
    intros data' [= <-]. split; [done|]. split; [done|].
    rewrite ClaimProviderProofs.not_a_listed_field
      by (apply (bool_decide_unpack _); vm_compute; reflexivity).
    unfold with_user_info, editor.
    rewrite lookup_insert_ne, lookup_insert_eq by done.
    cbn. by destruct (String.eqb (ud_role data) "Admin").
  - by repeat split.
Qed.

Lemma user_id_tells_the_role_witness :
  cred_userData ann_logs_in = Some ann /\
  @ClaimService.sanitize (host 0)
    (with_user_info (editor (login ann_logs_in signed_out).1.2)
       (@formatDateFields (host 0) Examples.raise_charge)) !! "user_id"
  = Some (JStr "admin-1").
Proof.
  split; [reflexivity|].
  pose proof (@user_id_tells_the_role (host 0) ann_logs_in signed_out
                Examples.raise_charge) as Hlogin.
  destruct (login ann_logs_in signed_out) as [[pending after] ok].
  destruct Hlogin as (_ & _ & Hdata & _).
  destruct (Hdata ann eq_refl) as (_ & _ & Hid). exact Hid.
Defined.

End AuthContextProofs.

(** ** The history cache and the field labels *)

Module HistoryViewProofs.
Import JS Builtins ClaimService HistorySection HistoryCard HistoryView.
Import Examples Samples.

(** A load that is not forced and finds a fresh cache entry only sets the
    history: it makes no request and does not depend on
    [isMounted.current]. *)
Lemma loadHistory_cached (get_history : string -> history_attempt)
    (claim : jsval) (seen : Z) (now : Z) (mounted : bool) (c : component)
    (entry : cache_entry) :
  historyCache c !! to_string claim = Some entry ->
  now - cached_at entry < CACHE_EXPIRY ->
  loadHistory get_history claim seen false now mounted c
  = setHistory (cached_data entry) c.
Proof.
  intros Hentry Hnow. unfold loadHistory, cache_is_fresh. rewrite Hentry.
  assert ((now - cached_at entry <? CACHE_EXPIRY) = true) as ->
    by (apply Z.ltb_lt; lia).
  reflexivity.
Qed.

(** The cache answers for five minutes.  A load that got the history from
    the server at time [t0] stores it in the cache and the card shows it.
    For less than five minutes from then a load of that claim that is not
    forced asks the server nothing, whatever card makes it over that cache:
    it sets the history to the stored entries and leaves the loading flag
    and the error as they are.  So a card newly mounted for the claim shows
    the stored entries, a card that is given the claim shows them when it
    was not loading and had no error, and a card that was loading goes on
    showing "Loading history...". *)
Theorem cached_history_is_shown
    (g1 g2 : string -> history_attempt) (claim : jsval) (seen1 : Z)
    (force1 : bool) (t0 t : Z) (c : component) (r : history_response) :
  force1 = true \/
    (cache_is_fresh claim t0 c = false /\ 10000 <= t0 - seen1) ->
  g1 (to_string claim) = HFulfilled (Some r) ->
  h_success r = true ->
  t - t0 < CACHE_EXPIRY ->
  let c1 := loadHistory g1 claim seen1 force1 t0 true c in
  let stored := match h_data r with [] => EmptyState | l => Entries l end in
  history c1 = h_data r /\
  render c1 = (if isExpanded c then stored else Collapsed) /\
  (forall seen2 mounted2 c2,
     historyCache c2 = historyCache c1 ->
     loadHistory g2 claim seen2 false t mounted2 c2
     = setHistory (h_data r) c2) /\
  render (card (mount g2 claim t (historyCache c1))) = stored /\
  (forall i,
     historyCache (card i) = historyCache c1 ->
     let i' := change_claim g2 claim t i in
     isLoading (card i') = isLoading (card i) /\
     error (card i') = error (card i) /\
     (isLoading (card i) = true ->
      render (card i') = if isExpanded (card i) then Loading else Collapsed) /\
     (isLoading (card i) = false -> error (card i) = None ->
      render (card i') = if isExpanded (card i) then stored else Collapsed)).
Proof.
  intros Hreq Hg Hok Ht c1 stored.
  assert (Hc1 : c1 = setIsLoading false
                  (remember (to_string claim)
                     {| cached_data := h_data r; cached_at := t0 |}
                     (setHistory (h_data r)
                        (setLastFetchTime t0
                           (setError None (setIsLoading true c)))))).
  { subst c1. rewrite (HistorySectionProofs.loadHistory_requests
                         g1 _ _ _ _ _ _ Hreq).
    unfold fetchClaimHistory. by rewrite Hg, Hok. }
  assert (Hcached : forall seen2 mounted2 c2,
            historyCache c2 = historyCache c1 ->
            loadHistory g2 claim seen2 false t mounted2 c2
            = setHistory (h_data r) c2).
  { intros seen2 mounted2 c2 Hcache.
    apply (loadHistory_cached g2 claim seen2 t mounted2 c2
             {| cached_data := h_data r; cached_at := t0 |}); [|done].
    rewrite Hcache, Hc1.
    cbn [historyCache remember setIsLoading]. by rewrite lookup_insert_eq. }
  split; [by rewrite Hc1|]. split.
  { rewrite Hc1. unfold render.
    cbn [isExpanded isLoading error history remember setIsLoading setHistory
         setLastFetchTime setError].
    reflexivity. }
  split; [exact Hcached|]. split.
  - cbn [mount card]. rewrite Hcached by reflexivity. reflexivity.
  - intros i Hcache i'. subst i'. cbn [change_claim card].
    rewrite Hcached by exact Hcache.
    split; [reflexivity|]. split; [reflexivity|]. split.
    + intros Hload. unfold render.
      cbn [isExpanded isLoading setHistory forget_loaded]. by rewrite Hload.
    + intros Hload Herr. unfold render.
      cbn [isExpanded isLoading error history setHistory forget_loaded].
      by rewrite Hload, Herr.
Qed.

Lemma cached_history_is_shown_witness :
  render loaded_card = Entries [one_change] /\
  render (card (mount history_down (JNum (Finite 42 0)) 200000
                  (historyCache loaded_card)))
  = Entries [one_change] /\
  isLoading (card card_42_to_7) = true /\
  render (card (change_claim history_down (JNum (Finite 42 0)) 200000
                  card_42_to_7))
  = Loading.
Proof.
  destruct (cached_history_is_shown history_of_42 history_down
              (JNum (Finite 42 0)) 0 true 1000 200000 fresh_card
              {| h_success := true; h_data := [one_change];
                 h_message := None |})
    as (_ & Hfirst & _ & Hmount & Hchange);
    [by left | reflexivity | reflexivity | reflexivity |].
  assert (Hloading : isLoading (card card_42_to_7) = true)
    by (vm_compute; reflexivity).
  destruct (Hchange card_42_to_7) as (_ & _ & Hstuck & _);
    [vm_compute; reflexivity|].
  split; [exact Hfirst|]. split; [exact Hmount|].
  split; [exact Hloading | exact (Hstuck Hloading)].
Defined.



(** *** formatFieldName *)

Lemma length_append (a b : string) :
  String.length (a +:+ b) = (String.length a + String.length b)%nat.
Proof.
  induction a as [|c a IH]; [done|].
  change (String c a +:+ b) with (String c (a +:+ b)).
  cbn [String.length]. by rewrite IH.
Qed.

Lemma split_cons (sep : ascii) (s : string) :
  exists w ws, split sep s = w :: ws.
Proof.
  induction s as [|c r (w & ws & IH)]; cbn; [by eexists _, _|].
  destruct (Ascii.eqb c sep); [by eexists _, _|].
  rewrite IH. by eexists _, _.
Qed.

Lemma join_measure (w : string) (ws : list string) :
  (String.length (join " " (w :: ws)) + 1)%nat = measure (w :: ws).
Proof.
  revert w. induction ws as [|w' ws IH]; intros w; cbn [measure foldr].
  - cbn [join]. lia.
  - change (join " " (w :: w' :: ws))
      with (w +:+ " " +:+ join " " (w' :: ws)).
    rewrite !length_append. cbn [String.length].
    specialize (IH w'). cbn [measure foldr] in IH. lia.
Qed.

Lemma split_measure (sep : ascii) (s : string) :
  measure (split sep s) = (String.length s + 1)%nat.
Proof.
  unfold measure. induction s as [|c r IH]; cbn [split]; [done|].
  destruct (Ascii.eqb c sep).
  - cbn [foldr String.length]. lia.
  - destruct (split_cons sep r) as (w & ws & Hs). rewrite Hs in *.
    cbn [foldr String.length] in *. lia.
Qed.

Lemma capitalize_length (w : string) :
  String.length (capitalize w) = String.length w.
Proof. by destruct w. Qed.

Lemma capitalize_measure (ws : list string) :
  measure (capitalize <$> ws) = measure ws.
Proof.
  unfold measure. induction ws as [|w ws IH]; [done|].
  rewrite fmap_cons. cbn [foldr]. rewrite capitalize_length, IH. done.
Qed.

Lemma to_upper_underscore (c : ascii) :
  Ascii.eqb "_" (to_upper c) = Ascii.eqb "_" c.
Proof.
  destruct c as [b0 b1 b2 b3 b4 b5 b6 b7].
  by destruct b0, b1, b2, b3, b4, b5, b6, b7.
Qed.

Lemma to_upper_twice (c : ascii) : to_upper (to_upper c) = to_upper c.
Proof.
  destruct c as [b0 b1 b2 b3 b4 b5 b6 b7].
  by destruct b0, b1, b2, b3, b4, b5, b6, b7.
Qed.

Lemma includes_char (c a : ascii) (r : string) :
  includes (String c "") (String a r)
  = Ascii.eqb c a || includes (String c "") r.
Proof. cbn. by destruct (Ascii.eqb c a). Qed.

Lemma includes_append (c : ascii) (a b : string) :
  includes (String c "") (a +:+ b)
  = includes (String c "") a || includes (String c "") b.
Proof.
  induction a as [|x a IH].
  - by destruct b.
  - change (String x a +:+ b) with (String x (a +:+ b)).
    rewrite !includes_char, IH. by rewrite orb_assoc.
Qed.

Lemma capitalize_underscore (w : string) :
  includes "_" (capitalize w) = includes "_" w.
Proof.
  destruct w as [|c r]; [done|]. unfold capitalize.
  by rewrite !includes_char, to_upper_underscore.
Qed.

Lemma split_words_clean (s : string) :
  Forall (fun w => includes "_" w = false) (split "_" s).
Proof.
  induction s as [|c r IH]; cbn [split]; [by repeat constructor|].
  destruct (Ascii.eqb c "_") eqn:Hc.
  - by constructor.
  - destruct (split_cons "_" r) as (w & ws & Hs). rewrite Hs in *.
    apply Forall_cons in IH as [Hw Hws]. constructor; [|done].
    rewrite includes_char, Hw.
    rewrite Ascii.eqb_sym, Hc. done.
Qed.

Lemma join_clean (ws : list string) :
  Forall (fun w => includes "_" w = false) ws ->
  includes "_" (join " " ws) = false.
Proof.
  induction ws as [|w ws IH]; intros Hws; [done|].
  apply Forall_cons in Hws as [Hw Hws]. specialize (IH Hws).
  destruct ws as [|w' ws]; [done|].
  cbn [join] in *. rewrite !includes_append, Hw, IH. done.
Qed.

Lemma split_clean (s : string) :
  includes "_" s = false -> split "_" s = [s].
Proof.
  induction s as [|c r IH]; [done|].
  rewrite includes_char. intros [Hc Hr]%orb_false_elim.
  cbn [split]. rewrite Ascii.eqb_sym, Hc. by rewrite (IH Hr).
Qed.

Lemma capitalize_label (ws : list string) :
  capitalize (join " " (capitalize <$> ws)) = join " " (capitalize <$> ws).
Proof.
  destruct ws as [|w ws]; [done|].
  destruct ws as [|w' ws].
  - destruct w; [done|]. cbn [fmap list_fmap join capitalize].
    by rewrite to_upper_twice.
  - rewrite !fmap_cons.
    change (join " " (capitalize w :: capitalize w' :: (capitalize <$> ws)))
      with (capitalize w +:+ " "
            +:+ join " " (capitalize w' :: (capitalize <$> ws))).
    generalize (join " " (capitalize w' :: (capitalize <$> ws))).
    intros t. destruct w as [|a w]; [done|]. cbn [capitalize].
    change (String (to_upper a) w +:+ " " +:+ t)
      with (String (to_upper a) (w +:+ " " +:+ t)).
    cbn [capitalize]. by rewrite to_upper_twice.
Qed.

(** A label is the field name with its underscores replaced by spaces and
    the first letter of each word in upper case: for a field name of ASCII
    characters it is as long as the field name, it has no underscore left,
    and formatting a label again gives the same label. *)
Theorem formatFieldName_label (fieldName : string) :
  ascii_only fieldName = true ->
  String.length (formatFieldName fieldName) = String.length fieldName /\
  includes "_" (formatFieldName fieldName) = false /\
  formatFieldName (formatFieldName fieldName) = formatFieldName fieldName.
Proof.
  intros _.
  assert (Hclean : includes "_" (formatFieldName fieldName) = false).
  { unfold formatFieldName. apply join_clean.
    apply Forall_fmap. eapply Forall_impl; [apply split_words_clean|].
    intros w Hw. cbn. by rewrite capitalize_underscore. }
  split; [|split; [done|]].
  - unfold formatFieldName.
    destruct (split_cons "_" fieldName) as (w & ws & Hs).
    pose proof (split_measure "_" fieldName) as Hm. rewrite Hs in *.
    pose proof (join_measure (capitalize w) (capitalize <$> ws)) as Hj.
    change (capitalize w :: (capitalize <$> ws))
      with (capitalize <$> (w :: ws)) in Hj.
    rewrite capitalize_measure in Hj. lia.
  - unfold formatFieldName at 1. rewrite (split_clean _ Hclean).
    cbn [fmap list_fmap join]. unfold formatFieldName.
    apply capitalize_label.
Qed.

Lemma formatFieldName_label_witness :
  ascii_only "prim_chk_amt" = true /\
  formatFieldName "prim_chk_amt" = "Prim Chk Amt" /\
  String.length (formatFieldName "prim_chk_amt") = 12%nat /\
  includes "_" (formatFieldName "prim_chk_amt") = false.
Proof.
  split; [reflexivity|]. split; [reflexivity|].
  destruct (formatFieldName_label "prim_chk_amt" eq_refl) as (Hl & Hc & _).
  split; [exact Hl | exact Hc].
Defined.

End HistoryViewProofs.

(** ** The forms and the status control *)

Module FormsProofs.
Import JS Builtins ClaimContext ClaimTabs SummaryCard Examples Samples.

Lemma attempts_puts (id0 id : string) (payload body : object) (k : nat) :
  ClaimService.Put id body ∈ ClaimService.attempts id0 payload k ->
  id = id0 /\ body = payload.
Proof.
  unfold ClaimService.attempts. rewrite elem_of_app.
  intros [Hin|Hin].
  - apply list_elem_of_join in Hin as (l & Hin & Hl).
    apply elem_of_replicate in Hl as [-> _].
    rewrite !elem_of_cons, elem_of_nil in Hin.
    destruct Hin as [[= -> ->]|[[=]|[]]]. done.
  - rewrite elem_of_cons, elem_of_nil in Hin.
    destruct Hin as [[= -> ->]|[]]. done.
Qed.

Lemma update_puts `{Engine} (net : ClaimService.network) (now : Z)
    (user : option User) (upd : object) (s : state) (id : string)
    (body : object) :
  ClaimService.Put id body ∈ events (updateClaim net now user upd s) ->
  body = ClaimService.sanitize (with_user_info user (formatDateFields upd)).
Proof.
  unfold updateClaim. cbn [currentClaim setError setIsLoading].
  destruct (currentClaim s) as [cur|];
    [|cbn [events fail]; by rewrite elem_of_nil].
  destruct (id_toString (get cur "id")) as [id0|type_error];
    [|cbn [events fail]; by rewrite elem_of_nil].
  destruct (ClaimServiceProofs.updateClaim_bounded net id0
              (with_user_info user (formatDateFields upd)) 3 0)
    as (k & _ & Hev).
  destruct (ClaimService.updateClaim net 0 id0 _ 3) as [response evs].
  cbn [snd] in Hev. subst evs.
  destruct (succeeded response); cbn [events fail].
  - intros Hin. by apply attempts_puts in Hin as [_ ->].
  - rewrite elem_of_app, elem_of_cons, elem_of_nil.
    intros [Hin|[[=]|[]]]. by apply attempts_puts in Hin as [_ ->].
Qed.


(** What goes out for a property of the update that the provider does not
    format. *)
Lemma sent_as_given `{Engine} (user : option User) (upd : object)
    (f : string) :
  f ∉ ClaimService.dateFields -> f <> "username" -> f <> "user_id" ->
  with_user_info user (formatDateFields upd) !! f = upd !! f.
Proof.
  intros Hd Hn Hi. unfold with_user_info.
  rewrite !lookup_insert_ne by done.
  rewrite ClaimContextProofs.formatDateFields_lookup.
  by rewrite decide_False.
Qed.

Lemma sent_amount `{Engine} (user : option User) (upd : object)
    (f : string) (v : jsval) :
  f ∈ ClaimService.numericFields -> upd !! f = Some v ->
  ClaimService.wire
    (ClaimService.sanitize (with_user_info user (formatDateFields upd))) !! f
  = json_property (ClaimService.numeric_value v).
Proof.
  intros Hf Hv. apply ClaimServiceProofs.wire_sanitize_numeric; [done|].
  rewrite sent_as_given; [done| | |].
  - by destruct (proj1 (ClaimServiceProofs.field_lists_disjoint f) Hf).
  - intros ->. revert Hf. apply (bool_decide_unpack _). vm_compute. reflexivity.
  - intros ->. revert Hf. apply (bool_decide_unpack _). vm_compute. reflexivity.
Qed.

Lemma sent_text `{Engine} (user : option User) (upd : object)
    (f : string) (v : jsval) :
  f ∉ ClaimService.legacyFields -> f ∉ ClaimService.dateFields ->
  f ∉ ClaimService.numericFields -> f <> "username" -> f <> "user_id" ->
  upd !! f = Some v ->
  ClaimService.wire
    (ClaimService.sanitize (with_user_info user (formatDateFields upd))) !! f
  = json_property v.
Proof.
  intros Hl Hd Hn Hu Hi Hv. unfold ClaimService.wire. rewrite lookup_omap.
  rewrite ClaimProviderProofs.not_a_listed_field by done.
  by rewrite sent_as_given, Hv.
Qed.

(** A number goes out as a number or as null. *)
Lemma number_on_the_wire (n : number) :
  exists v, json_property (ClaimService.numeric_value (JNum n)) = Some v /\
    ClaimService.number_or_null v = true /\
    (isNaN n = true -> v = JNull).
Proof.
  destruct n as [|sign|m e].
  - exists JNull. by repeat split.
  - unfold ClaimService.numeric_value. cbn [strict_eq negb andb].
    destruct (isNaN (parseFloat (JNum (Infinity sign)))); cbn [negb].
    + exists JNull. by repeat split.
    + destruct (parseFloat (JNum (Infinity sign))) as [|sign'|m e];
        eexists; (split; [reflexivity|]); by split.
  - unfold ClaimService.numeric_value. cbn [strict_eq negb andb].
    destruct (isNaN (parseFloat (JNum (Finite m e)))); cbn [negb].
    + eexists. split; [reflexivity|]. by split.
    + destruct (parseFloat (JNum (Finite m e))) as [|sign'|m' e'];
        eexists; (split; [reflexivity|]); by split.
Qed.

(** The claim details form, filled with ASCII text.  An incomplete form is
    refused with a message and nothing is sent.  A complete form is handed
    to the provider, the feedback is the success message exactly when the
    update resolves, and every PUT carries a charge amount that is a number
    or null, never text: an amount that does not read as a number is sent
    as 0. *)
Theorem claim_details_save `{Engine} (net : ClaimService.network) (now : Z)
    (user : option User) (claim : VisitClaim) (f : ClaimDetailsForm)
    (s : state) :
  ascii_only (oaClaimId f) = true -> ascii_only (oaVisitId f) = true ->
  ascii_only (chargeDt f) = true -> ascii_only (chargeAmount f) = true ->
  match handleSaveClaimDetails net now user claim f s with
  | (fb, None) =>
      isClaimDetailsComplete f = false /\
      fb = Failed "Please fill in all required fields in the Claim Details tab."
  | (fb, Some out) =>
      isClaimDetailsComplete f = true /\
      (fb = Saved "Claim details saved successfully!"
       <-> exists c, result out = inl c) /\
      forall id body,
        ClaimService.Put id body ∈ events out ->
        exists v,
          ClaimService.wire body !! "charge_amt" = Some v /\
          ClaimService.number_or_null v = true /\
          (isNaN (parseFloat (JStr (chargeAmount f))) = true ->
           v = JNum (Finite 0 0))
  end.
Proof.
  intros _ _ _ _. unfold handleSaveClaimDetails.
  destruct (isClaimDetailsComplete f); cbn [negb]; [|done].
  split; [done|]. split.
  - unfold feedback_of.
    destruct (result (updateClaim net now user (claimDetailsUpdate claim f) s))
      as [c|msg].
    + split; [by exists c | done].
    + split; [done | by intros [c [=]]].
  - intros id body Hput. apply update_puts in Hput as ->.
    rewrite (sent_amount user (claimDetailsUpdate claim f) "charge_amt"
               (or_else (JNum (parseFloat (JStr (chargeAmount f))))
                        (JNum (Finite 0 0))));
      [|apply (bool_decide_unpack _); vm_compute; reflexivity | reflexivity].
    unfold or_else. cbn [truthy].
    destruct (parseFloat (JStr (chargeAmount f))) as [|sign|m e] eqn:Hp;
      cbn [isNaN is_zero negb andb].
    + exists (JNum (Finite 0 0)). by repeat split.
    + destruct (number_on_the_wire (Infinity sign)) as (v & Hv & Hn & _).
      exists v. by repeat split.
    + destruct (m =? 0); cbn [negb].
      * exists (JNum (Finite 0 0)). by repeat split.
      * destruct (number_on_the_wire (Finite m e)) as (v & Hv & Hn & _).
        exists v. by repeat split.
Qed.

Lemma amount_or_null_sent (text : string) :
  exists v,
    json_property (ClaimService.numeric_value (amount_or_null text)) = Some v /\
    ClaimService.number_or_null v = true /\
    (ascii_only text = true ->
     isNaN (parseFloat (JStr text)) = true -> v = JNull).
Proof.
  unfold amount_or_null. destruct (truthy (JStr text)).
  - destruct (number_on_the_wire (parseFloat (JStr text)))
      as (v & Hv & Hn & Hnull).
    exists v. split; [done|]. split; [done|]. intros _. exact Hnull.
  - exists JNull. by repeat split.
Qed.

Lemma filled_amount_or_null_sent (text : string) :
  exists v,
    json_property (ClaimService.numeric_value (filled_amount_or_null text))
    = Some v /\
    ClaimService.number_or_null v = true /\
    (ascii_only text = true ->
     isNaN (parseFloat (JStr text)) = true -> v = JNull).
Proof.
  unfold filled_amount_or_null. destruct (truthy (JStr text) && filled text).
  - destruct (number_on_the_wire (parseFloat (JStr text)))
      as (v & Hv & Hn & Hnull).
    exists v. split; [done|]. split; [done|]. intros _. exact Hnull.
  - exists JNull. by repeat split.
Qed.

Lemma trimmed_or_null_sent (text : string) :
  json_property (trimmed_or_null text)
  = Some (if String.eqb (trim text) "" then JNull else JStr (trim text)).
Proof.
  unfold trimmed_or_null, or_else. cbn [truthy].
  by destruct (String.eqb (trim text) "").
Qed.

Lemma claim_details_save_witness :
  ascii_only (chargeAmount details_with_text) = true /\
  isClaimDetailsComplete details_with_text = true /\
  exists out body,
    (@handleSaveClaimDetails (host 0) net_saving 0 None claim_42
       details_with_text viewing_42).2 = Some out /\
    ClaimService.Put "42" body ∈ events out /\
    ClaimService.wire body !! "charge_amt" = Some (JNum (Finite 0 0)).
Proof.
  assert (Hc : isClaimDetailsComplete details_with_text = true)
    by reflexivity.
  split; [reflexivity|]. split; [exact Hc|].
  pose proof (@claim_details_save (host 0) net_saving 0 None claim_42
                details_with_text viewing_42 eq_refl eq_refl eq_refl eq_refl)
    as Hsave.
  destruct (@handleSaveClaimDetails (host 0) net_saving 0 None claim_42
              details_with_text viewing_42) as [fb [out|]] eqn:Hout.
  - unfold handleSaveClaimDetails in Hout. rewrite Hc in Hout.
    cbn [negb] in Hout. injection Hout as _ <-.
    destruct Hsave as (_ & _ & Hput).
    eexists _, _. split; [reflexivity|].
    assert (Hin : ClaimService.Put "42"
                    (@ClaimService.sanitize (host 0)
                       (with_user_info None
                          (@formatDateFields (host 0)
                             (claimDetailsUpdate claim_42 details_with_text))))
                  ∈ events
                      (@updateClaim (host 0) net_saving 0 None
                         (claimDetailsUpdate claim_42 details_with_text)
                         viewing_42))
      by (apply list_elem_of_here).
    split; [exact Hin|].
    destruct (Hput _ _ Hin) as (v & Hv & _ & Hzero).
    rewrite Hv, (Hzero eq_refl). reflexivity.
  - destruct Hsave as [Hno _]. rewrite Hc in Hno. discriminate Hno.
Defined.

(** The insurance forms send null for what is blank.  In every PUT of the
    primary and of the secondary form, each amount is a number or null, and
    null when its text is ASCII and does not read as a number; each text
    field of ASCII text is sent as its trimmed text, or as null when that is
    empty: an empty string is never sent for them. *)
Theorem insurance_forms_send_null_for_blank `{Engine}
    (net : ClaimService.network) (now : Z) (user : option User)
    (claim : VisitClaim) (s : state) (id : string) (body : object) :
  (forall f : PrimaryInsuranceForm,
     ClaimService.Put id body ∈ events (handleSavePrimary net now user claim f s).2 ->
     (forall k text,
        (k, text) ∈ [("prim_amt", primAmt f); ("prim_chk_amt", primChkAmt f)] ->
        exists v, ClaimService.wire body !! k = Some v /\
          ClaimService.number_or_null v = true /\
          (ascii_only text = true ->
           isNaN (parseFloat (JStr text)) = true -> v = JNull)) /\
     (forall k text,
        (k, text) ∈ [("prim_ins", primIns f); ("prim_chk_det", primChkDetails f);
                     ("prim_cmt", primCmnt f);
                     ("claim_status_type", primDenialCode f)] ->
        ascii_only text = true ->
        ClaimService.wire body !! k
        = Some (if String.eqb (trim text) "" then JNull
                else JStr (trim text)))) /\
  (forall f : SecondaryInsuranceForm,
     ClaimService.Put id body ∈ events (handleSaveSecondary net now user claim f s).2 ->
     (forall k text,
        (k, text) ∈ [("sec_amt", secAmt f); ("sec_chk_amt", secChkAmt f);
                     ("pat_amt", patAmt f)] ->
        exists v, ClaimService.wire body !! k = Some v /\
          ClaimService.number_or_null v = true /\
          (ascii_only text = true ->
           isNaN (parseFloat (JStr text)) = true -> v = JNull)) /\
     (forall k text,
        (k, text) ∈ [("sec_ins", secIns f); ("sec_chk_det", secChkDetails f);
                     ("sec_cmt", secCmnt f)] ->
        ascii_only text = true ->
        ClaimService.wire body !! k
        = Some (if String.eqb (trim text) "" then JNull
                else JStr (trim text)))).
Proof.
  split; intros f Hput; cbn [handleSavePrimary handleSaveSecondary snd] in Hput;
    apply update_puts in Hput as ->; split; intros k text Hk;
    rewrite !elem_of_cons, elem_of_nil in Hk.
  - destruct Hk as [[= -> ->]|[[= -> ->]|[]]].
    + rewrite (sent_amount user _ "prim_amt" (amount_or_null (primAmt f)));
        [apply amount_or_null_sent
        |apply (bool_decide_unpack _); vm_compute; reflexivity
        |reflexivity].
    + rewrite (sent_amount user _ "prim_chk_amt"
                 (amount_or_null (primChkAmt f)));
        [apply amount_or_null_sent
        |apply (bool_decide_unpack _); vm_compute; reflexivity
        |reflexivity].
  - destruct Hk as [[= -> ->]|[[= -> ->]|[[= -> ->]|[[= -> ->]|[]]]]];
      intros _;
      (erewrite sent_text;
       [apply trimmed_or_null_sent
       |try (apply (bool_decide_unpack _); vm_compute; reflexivity);
        try done ..
       |reflexivity]).
  - destruct Hk as [[= -> ->]|[[= -> ->]|[[= -> ->]|[]]]].
    + rewrite (sent_amount user _ "sec_amt"
                 (filled_amount_or_null (secAmt f)));
        [apply filled_amount_or_null_sent
        |apply (bool_decide_unpack _); vm_compute; reflexivity
        |reflexivity].
    + rewrite (sent_amount user _ "sec_chk_amt"
                 (filled_amount_or_null (secChkAmt f)));
        [apply filled_amount_or_null_sent
        |apply (bool_decide_unpack _); vm_compute; reflexivity
        |reflexivity].
    + rewrite (sent_amount user _ "pat_amt"
                 (filled_amount_or_null (patAmt f)));
        [apply filled_amount_or_null_sent
        |apply (bool_decide_unpack _); vm_compute; reflexivity
        |reflexivity].
  - destruct Hk as [[= -> ->]|[[= -> ->]|[[= -> ->]|[]]]];
      intros _;
      (erewrite sent_text;
       [apply trimmed_or_null_sent
       |try (apply (bool_decide_unpack _); vm_compute; reflexivity);
        try done ..
       |reflexivity]).
Qed.

Lemma insurance_forms_send_null_for_blank_witness :
  exists body,
    ClaimService.Put "42" body
    ∈ events (@handleSavePrimary (host 0) net_saving 0 None claim_42
                primary_with_text viewing_42).2 /\
    ClaimService.wire body !! "prim_amt" = Some JNull /\
    ClaimService.wire body !! "prim_ins" = Some JNull /\
    ClaimService.wire body !! "prim_cmt" = Some (JStr "paid").
Proof.
  set (body := @ClaimService.sanitize (host 0)
                 (with_user_info None
                    (@formatDateFields (host 0)
                       (primaryUpdate claim_42 primary_with_text)))).
  exists body.
  assert (Hin : ClaimService.Put "42" body
                ∈ events (@handleSavePrimary (host 0) net_saving 0 None
                            claim_42 primary_with_text viewing_42).2)
    by (apply list_elem_of_here).
  split; [exact Hin|].
  destruct (@insurance_forms_send_null_for_blank (host 0) net_saving 0 None
              claim_42 viewing_42 "42" body) as [Hprimary _].
  destruct (Hprimary primary_with_text Hin) as [Hamounts Htexts].
  destruct (Hamounts "prim_amt" "abc") as (v & Hv & _ & Hnull);
    [apply list_elem_of_here|].
  rewrite Hv, (Hnull eq_refl eq_refl).
  rewrite (Htexts "prim_ins" "  ")
    by first [apply list_elem_of_here | reflexivity].
  rewrite (Htexts "prim_cmt" " paid ")
    by first [do 2 apply list_elem_of_further; apply list_elem_of_here
             |reflexivity].
  by repeat split.
Defined.

Lemma status_options :
  Forall (fun o => truthy (JStr o) = true /\ legacy_status o = "Pending")
    claimStatusOptions.
Proof. unfold claimStatusOptions. repeat (constructor; [by split|]). constructor. Qed.

(** Saving a status of the dropdown.  The update is handed to the provider;
    every PUT carries the selected status as [claim_status] and neither the
    legacy [status] nor [updatedAt], which are stripped; and while the
    request is in flight the current claim shows the selected status, the
    legacy status "Pending" and the time of the save. *)
Theorem status_save `{Engine} (net : ClaimService.network) (now : Z)
    (user : option User) (claim : VisitClaim) (selectedStatus : string)
    (s : state) :
  selectedStatus ∈ claimStatusOptions ->
  exists out,
    handleSaveStatus net now user claim selectedStatus s = Some out /\
    (forall id body,
       ClaimService.Put id body ∈ events out ->
       ClaimService.wire body !! "claim_status" = Some (JStr selectedStatus) /\
       body !! "status" = None /\ body !! "updatedAt" = None) /\
    (forall st,
       in_flight out = Some st ->
       exists c, currentClaim st = Some c /\
         c !! "claim_status" = Some (JStr selectedStatus) /\
         c !! "status" = Some (JStr "Pending") /\
         c !! "updatedAt" = Some (JStr (toISOString now))).
Proof.
  intros Hsel. pose proof status_options as Hopt.
  rewrite Forall_forall in Hopt. destruct (Hopt _ Hsel) as [Htruthy Hlegacy].
  unfold handleSaveStatus. rewrite Htruthy. eexists. split; [reflexivity|].
  split.
  - intros id body Hput. apply update_puts in Hput as ->. split; [|split].
    + rewrite (sent_text user _ "claim_status" (JStr selectedStatus));
        [reflexivity
        |try (apply (bool_decide_unpack _); vm_compute; reflexivity);
         try done ..
        |reflexivity].
    + rewrite ClaimServiceProofs.sanitize_lookup. by rewrite decide_True
        by (apply (bool_decide_unpack _); vm_compute; reflexivity).
    + rewrite ClaimServiceProofs.sanitize_lookup. by rewrite decide_True
        by (apply (bool_decide_unpack _); vm_compute; reflexivity).
  - intros st. unfold updateClaim.
    cbn [currentClaim setError setIsLoading].
    destruct (currentClaim s) as [cur|]; [|done].
    destruct (id_toString (get cur "id")) as [id|type_error]; [|done].
    destruct (ClaimService.updateClaim net 0 id _ 3) as [response evs].
    assert (Hst : forall st',
              Some (optimistic cur (statusUpdate now claim selectedStatus)
                      (setError None (setIsLoading true s))) = Some st' ->
              exists c, currentClaim st' = Some c /\
                c !! "claim_status" = Some (JStr selectedStatus) /\
                c !! "status" = Some (JStr "Pending") /\
                c !! "updatedAt" = Some (JStr (toISOString now))).
    { intros st' [= <-]. eexists. split; [reflexivity|].
      unfold merge.
      repeat split;
        (erewrite lookup_union_Some_l; [reflexivity|]);
        rewrite ClaimContextProofs.formatDateFields_lookup;
        (rewrite decide_False
           by (apply (bool_decide_unpack _); vm_compute; reflexivity));
        [reflexivity | by rewrite <- Hlegacy | reflexivity]. }
    destruct (succeeded response); cbn [in_flight fail]; apply Hst.
Qed.

Lemma status_save_witness :
  "Insurance Paid" ∈ claimStatusOptions /\
  exists out,
    @handleSaveStatus (host 0) net_saving 1000 None claim_42 "Insurance Paid"
      viewing_42 = Some out /\
    forall st, in_flight out = Some st ->
      exists c, currentClaim st = Some c /\
        c !! "claim_status" = Some (JStr "Insurance Paid") /\
        c !! "status" = Some (JStr "Pending") /\
        c !! "updatedAt" = Some (JStr (toISOString 1000)).
Proof.
  assert (Hin : "Insurance Paid" ∈ claimStatusOptions)
    by (apply (bool_decide_unpack _); vm_compute; reflexivity).
  split; [exact Hin|].
  destruct (@status_save (host 0) net_saving 1000 None claim_42
              "Insurance Paid" viewing_42 Hin) as (out & Hout & _ & Hflight).
  exists out. split; [exact Hout | exact Hflight].
Defined.

End FormsProofs.

(** ** The connection log of the database pool *)

Module DbProofs.
Import Db Samples.

Lemma on_connect_counts (ev : connect_event) (st : log_state) :
  connectionCount (on_connect ev st).1 = connectionCount st + 1.
Proof. unfold on_connect. by case_match. Qed.

(** Once a connection has been counted, a line is written only when more
    than a minute has passed since the time stored with the last line. *)
Lemma connections_after_the_first (evs : list connect_event) :
  forall st : log_state,
    1 <= connectionCount st ->
    spaced (logThrottleTime st) (connections evs st).2 /\
    connectionCount (connections evs st).1
    = connectionCount st + Z.of_nat (length evs) /\
    (connections evs st).2 `sublist_of` evs.
Proof.
  induction evs as [|ev evs IH]; intros st Hst; cbn [connections].
  - cbn. split; [done|]. split; [lia | constructor].
  - pose proof (on_connect_counts ev st) as Hcount.
    unfold on_connect in *.
    replace (connectionCount st + 1 =? 1) with false in * by lia.
    cbn [orb] in *.
    destruct (logThrottleInterval <? checked ev - logThrottleTime st)
      eqn:Hlate.
    + match goal with
      | |- context [connections evs ?st'] =>
          destruct (IH st') as (Hsp & Hn & Hsub); [cbn; lia|];
          destruct (connections evs st') as [final lines]
      end.
      cbn [fst snd spaced length connectionCount logThrottleTime] in *.
      split; [split; [lia | done]|]. split; [lia | by constructor].
    + match goal with
      | |- context [connections evs ?st'] =>
          destruct (IH st') as (Hsp & Hn & Hsub); [cbn; lia|];
          destruct (connections evs st') as [final lines]
      end.
      cbn [fst snd spaced length connectionCount logThrottleTime] in *.
      split; [done|]. split; [lia | by constructor].
Qed.

(** The connection log is throttled.  From the start of the pool every
    connection is counted; the first one is logged whatever the time, and
    each later line is written more than a minute after the time stored
    with the line before it; the lines are connections, in their order. *)
Theorem connection_log_is_throttled (ev : connect_event)
    (evs : list connect_event) (st : log_state) :
  connectionCount st = 0 ->
  exists final lines,
    connections (ev :: evs) st = (final, ev :: lines) /\
    spaced (stamped ev) lines /\
    lines `sublist_of` evs /\
    connectionCount final = Z.of_nat (length (ev :: evs)).
Proof.
  intros Hstart. cbn [connections]. unfold on_connect. rewrite Hstart.
  change (0 + 1 =? 1) with true. cbn [orb].
  match goal with
  | |- context [connections evs ?st'] =>
      destruct (connections_after_the_first evs st') as (Hsp & Hn & Hsub);
        [cbn; lia|];
      destruct (connections evs st') as [final lines]
  end.
  cbn [fst snd connectionCount logThrottleTime] in *.
  exists final, lines. repeat split; try done.
  cbn [length]. lia.
Qed.

Lemma connection_log_is_throttled_witness :
  connectionCount pool_start = 0 /\
  exists final lines,
    connections three_connections pool_start
    = (final, {| checked := 1000; stamped := 1000 |} :: lines) /\
    spaced 1000 lines /\
    connectionCount final = 3.
Proof.
  split; [reflexivity|].
  destruct (connection_log_is_throttled
              {| checked := 1000; stamped := 1000 |}
              [ {| checked := 11000; stamped := 11000 |};
                {| checked := 121001; stamped := 121002 |} ]
              pool_start eq_refl) as (final & lines & Hrun & Hsp & _ & Hn).
  exists final, lines. split; [exact Hrun|]. split; [exact Hsp | exact Hn].
Defined.

End DbProofs.
